(** * RAG_Finance: the query-serving pipeline, embedded in Rocq

    The development follows the Python modules [cache.py],
    [rate_limiter.py], [metrics.py], [llm.py], [vector_store.py],
    [rag_pipeline.py], [document_processor.py] and the [/query] and
    [/metrics] handlers of [api.py].

    Conventions of the embedding:
    - a Python [str] is a [string]; a character is a code point in 0..255;
    - a Python [float] (timestamps, latencies, similarity scores) is a
      rational [Q], arithmetic is exact;
    - a Python [int] is a [Z];
    - a Python [dict] used as a map is a [gmap];
    - a coroutine is a computation [M A] over the state of the process-wide
      objects; one that raises returns [Raise e], and [await] is sequencing;
    - calls that leave the process (Redis, Pinecone, OpenAI, the SQL
      session, [time.sleep]) are answered by a [World] of oracles and are
      recorded, in order, in a list of [Event]s; so are the two operations
      on the concurrency gauge; the wall clock is an oracle too;
    - the [bytes] Redis returns are kept by what [decode('utf-8')] makes
      of them: the text they encode, or the error it raises;
    - calls to [logger] are left out: they only write to the log. *)

From Stdlib Require Import QArith Qminmax Qround Lqa.
From Stdlib Require Import Ascii String.
From stdpp Require Import gmap strings list fin_maps.

Local Open Scope string_scope.

(** ** Python string methods *)

Module PyStr.

Definition code (c : ascii) : N := N_of_ascii c.

(** [str.lower] on one code point: A-Z and the accented capitals
    U+00C0..U+00DE (but not the multiplication sign U+00D7) move up by 32. *)
Definition lower_char (c : ascii) : ascii :=
  let n := code c in
  if ((65 <=? n) && (n <=? 90))%N
     || ((192 <=? n) && (n <=? 222) && negb (n =? 215))%N
  then ascii_of_N (n + 32) else c.

Fixpoint lower (s : string) : string :=
  match s with
  | EmptyString => EmptyString
  | String c r => String (lower_char c) (lower r)
  end.

(** The characters [str.strip] removes: TAB, LF, VT, FF, CR, the
    separators U+001C..U+001F, SPACE, NEL and NBSP. *)
Definition is_space (c : ascii) : bool :=
  let n := code c in
  (((9 <=? n) && (n <=? 13)) || ((28 <=? n) && (n <=? 32))
   || (n =? 133) || (n =? 160))%N.

Fixpoint lstrip (s : string) : string :=
  match s with
  | EmptyString => EmptyString
  | String c r => if is_space c then lstrip r else s
  end.

Definition is_empty (s : string) : bool :=
  match s with EmptyString => true | String _ _ => false end.

Fixpoint rstrip (s : string) : string :=
  match s with
  | EmptyString => EmptyString
  | String c r =>
      let r' := rstrip r in
      if is_space c && is_empty r' then EmptyString else String c r'
  end.

Definition strip (s : string) : string := rstrip (lstrip s).

Fixpoint all_space (s : string) : bool :=
  match s with
  | EmptyString => true
  | String c r => is_space c && all_space r
  end.

(** [s.startswith(p)] *)
Fixpoint startswith (p s : string) : bool :=
  match p, s with
  | EmptyString, _ => true
  | String _ _, EmptyString => false
  | String a p', String b s' => Ascii.eqb a b && startswith p' s'
  end.

(** [p in s] *)
Fixpoint contains (p s : string) : bool :=
  startswith p s
  || match s with
     | EmptyString => false
     | String _ s' => contains p s'
     end.

(** truth value of a string: [if s:] *)
Definition truthy (s : string) : bool := negb (is_empty s).

End PyStr.

(** ** config.py *)

Record Config := {
  CACHE_TTL_REALTIME : Z;
  CACHE_TTL_HISTORICAL : Z;
  RATE_LIMIT_MAX_REQUESTS : Z;
  RATE_LIMIT_WINDOW_SECONDS : Z
}.

(** The values taken when the environment sets none of them. *)
Definition default_config : Config :=
  {| CACHE_TTL_REALTIME := 3600;
     CACHE_TTL_HISTORICAL := 86400;
     RATE_LIMIT_MAX_REQUESTS := 100;
     RATE_LIMIT_WINDOW_SECONDS := 60 |}.

(** ** cache.py: the cache key *)

Definition get_cache_key (company question : string) : string :=
  let normalized_question := PyStr.strip (PyStr.lower question) in
  "financial_rag:" ++ company ++ ":" ++ normalized_question.

(** ** rate_limiter.py *)

Module RateLimiter.

Record t := mk {
  max_requests : Z;
  window_seconds : Z;
  requests : gmap string (list Q)
}.

Definition init (max_requests window_seconds : Z) : t :=
  mk max_requests window_seconds ∅.

(** [a > b] on timestamps *)
Definition gtb (a b : Q) : bool := negb (Qle_bool a b).

(** [[t for t in l if t > current_time - self.window_seconds]] *)
Definition prune (self : t) (current_time : Q) (l : list Q) : list Q :=
  List.filter (fun t => gtb t (current_time - inject_Z (window_seconds self))) l.

(** [self.requests[api_key]] once the key is known to be present *)
Definition window_of (reqs : gmap string (list Q)) (api_key : string) : list Q :=
  default [] (reqs !! api_key).

(** [check_rate_limit]; [current_time] is the value [time.time()]
    returned at the top of the call. *)
Definition check_rate_limit (self : t) (current_time : Q) (api_key : string)
  : bool * t :=
  let reqs0 :=
    match requests self !! api_key with
    | None => <[api_key := []]> (requests self)
    | Some _ => requests self
    end in
  let pruned := prune self current_time (window_of reqs0 api_key) in
  let reqs1 := <[api_key := pruned]> reqs0 in
  if (Z.of_nat (List.length pruned) <? max_requests self)%Z
  then (true,
        mk (max_requests self) (window_seconds self)
           (<[api_key := (pruned ++ [current_time])%list]> reqs1))
  else (false, mk (max_requests self) (window_seconds self) reqs1).

(** A series of calls for one key, at the given clock readings. *)
Fixpoint check_many (self : t) (api_key : string) (times : list Q)
  : list bool * t :=
  match times with
  | [] => ([], self)
  | now :: rest =>
      let '(b, self1) := check_rate_limit self now api_key in
      let '(bs, self2) := check_many self1 api_key rest in
      (b :: bs, self2)
  end.

(** [x] lies in the window of length [window] that starts at [base]. *)
Definition in_window (base : Q) (window : Z) (x : Q) : Prop :=
  (base <= x /\ x < base + inject_Z window)%Q.

(** Calls for any keys, in order; each comes with its clock reading. *)
Fixpoint check_calls (self : t) (calls : list (string * Q)) : list bool * t :=
  match calls with
  | [] => ([], self)
  | (api_key, now) :: rest =>
      let '(b, self1) := check_rate_limit self now api_key in
      let '(bs, self2) := check_calls self1 rest in
      (b :: bs, self2)
  end.

(** [min(l)] for a non-empty [l]: a later item replaces the candidate only
    when it is strictly smaller. *)
Definition list_min (x : Q) (l : list Q) : Q :=
  fold_left (fun m y => if gtb m y then y else m) l x.

(** [max(0, x)] with the integer 0 first: [x] wins only when positive. *)
Definition max0 (x : Q) : Q := if gtb x 0 then x else 0%Q.

(** [int(x)]: truncation towards zero. *)
Definition py_int (x : Q) : Z := if Qle_bool 0 x then Qfloor x else Qceiling x.

(** [{"remaining": ..., "reset_seconds": ...}] *)
Record Status := {
  remaining : Z;
  reset_seconds : Z
}.

(** [get_remaining_requests]; [current_time] is its reading of
    [time.time()]. *)
Definition get_remaining_requests (self : t) (current_time : Q)
           (api_key : string) : Status * t :=
  match requests self !! api_key with
  | None =>
      ({| remaining := max_requests self;
          reset_seconds := window_seconds self |}, self)
  | Some l =>
      let pruned := prune self current_time l in
      let self1 :=
        mk (max_requests self) (window_seconds self)
           (<[api_key := pruned]> (requests self)) in
      let remaining :=
        Z.max 0 (max_requests self - Z.of_nat (List.length pruned)) in
      let reset_seconds :=
        match pruned with
        | [] => 0%Z
        | x :: rest =>
            let oldest_timestamp := list_min x rest in
            py_int (max0 (inject_Z (window_seconds self)
                          - (current_time - oldest_timestamp)))
        end in
      ({| remaining := remaining; reset_seconds := reset_seconds |}, self1)
  end.

(** What a call for [api_key] can see of the limiter. *)
Definition same_for (api_key : string) (a b : t) : Prop :=
  max_requests a = max_requests b
  /\ window_seconds a = window_seconds b
  /\ window_of (requests a) api_key = window_of (requests b) api_key.

(** The calls made for [api_key], and the answers they got. *)
Definition times_for (api_key : string) (calls : list (string * Q)) : list Q :=
  map snd (List.filter (fun c => String.eqb c.1 api_key) calls).

Fixpoint decisions_for (api_key : string) (calls : list (string * Q))
         (answers : list bool) : list bool :=
  match calls, answers with
  | (k, _) :: calls', b :: answers' =>
      if String.eqb k api_key then b :: decisions_for api_key calls' answers'
      else decisions_for api_key calls' answers'
  | _, _ => []
  end.

(** No window is longer than the limit. *)
Definition bounded (self : t) : Prop :=
  forall api_key,
    (Z.of_nat (List.length (window_of (requests self) api_key))
     <= max_requests self)%Z.

End RateLimiter.

(** ** Exceptions, retrieval matches, events and the outside world *)

Inductive Exception := Exc (msg : string).

(** [str(e)] *)
Definition str_exc (e : Exception) : string := let 'Exc msg := e in msg.

Inductive Res (A : Type) : Type :=
| Ret (a : A)
| Raise (e : Exception).
Arguments Ret {A} a.
Arguments Raise {A} e.

(** What [redis.get] hands back for a stored key is [bytes].  [cache.get]
    tests them for emptiness and decodes them, and does nothing else with
    them, so they are kept by what [decode('utf-8')] finds: the text they
    encode, or that they are not UTF-8 (such bytes are never empty). *)
Inductive Bytes :=
| Encoded (text : string)
| Malformed.

(** truth value of [bytes]: not empty *)
Definition bytes_truthy (value : Bytes) : bool :=
  match value with
  | Encoded text => PyStr.truthy text
  | Malformed => true
  end.

(** [value.decode('utf-8')] *)
Definition decode (value : Bytes) : Res string :=
  match value with
  | Encoded text => Ret text
  | Malformed => Raise (Exc "'utf-8' codec can't decode bytes")
  end.

(** One entry of the list Pinecone returns; both keys may be missing. *)
Record Match := {
  m_score : option Q;
  m_metadata : option (gmap string string)
}.

Inductive Event :=
| EvRedisConnect
| EvRedisGet (key : string)
| EvRedisSetex (key : string) (ttl : Z) (value : string)
| EvRedisDbsize
| EvOpenAIConnect
| EvEmbeddings (text : string)
| EvChatCompletion (context question : string)
| EvPineconeConnect
| EvIndexQuery (embedding : list Q) (company : string) (top_k : Z)
| EvDbCommit (query_text company : string) (latency : Q) (cache_hit : Z)
             (api_key : string)
| EvSleep (seconds : Q)
| EvGaugeInc
| EvGaugeDec.

(** What the collaborators answer.  [clock n] is the n-th reading of
    [time.time()]; every other oracle is the outcome of one remote call. *)
Record World := {
  clock : nat -> Q;
  redis_connect : Res unit;
  redis_get : string -> Res (option Bytes);
  redis_setex : string -> Z -> string -> Res unit;
  redis_dbsize : Res Z;
  openai_connect : Res unit;
  embeddings_create : string -> Res (list Q);
  chat_completion : string -> string -> Res string;
  pinecone_connect : Res unit;
  index_query : list Q -> string -> Z -> Res (list Match);
  db_commit : string -> string -> Q -> Z -> string -> Res unit
}.

(** ** The objects of the process *)

Module RedisCache.
Record t := mk {
  redis : bool;           (* [self.redis] is a connection pool *)
  cache_hits : Z;
  cache_misses : Z
}.
Definition init : t := mk false 0 0.
End RedisCache.

Module MetricsManager.

(** Counter and histogram children are keyed by the label values
    [(company, str(cache_hit))]; of the histogram the observations are
    kept. *)
Record t := mk {
  query_counter : gmap (string * string) Z;
  query_latency : gmap (string * string) (list Q);
  concurrent_requests : Z;
  cache_size : Z;
  total_queries : Z;
  cache_hits : Z;
  cache_misses : Z;
  start_time : Q
}.

Definition init (now : Q) : t := mk ∅ ∅ 0 0 0 0 0 now.

(** [str(b)] for a bool *)
Definition str_bool (b : bool) : string := if b then "True" else "False".

Definition record_query (self : t) (company : string) (latency : Q)
           (cache_hit : bool) : t :=
  let lbl := (company, str_bool cache_hit) in
  mk (<[lbl := (default 0 (query_counter self !! lbl) + 1)%Z]> (query_counter self))
     (<[lbl := (default [] (query_latency self !! lbl) ++ [latency])%list]>
        (query_latency self))
     (concurrent_requests self)
     (cache_size self)
     (total_queries self + 1)
     (if cache_hit then cache_hits self + 1 else cache_hits self)%Z
     (if cache_hit then cache_misses self else cache_misses self + 1)%Z
     (start_time self).

Definition set_concurrent (self : t) (v : Z) : t :=
  mk (query_counter self) (query_latency self) v (cache_size self)
     (total_queries self) (cache_hits self) (cache_misses self)
     (start_time self).

Definition increment_concurrent (self : t) : t :=
  set_concurrent self (concurrent_requests self + 1).

Definition decrement_concurrent (self : t) : t :=
  set_concurrent self (concurrent_requests self - 1).

(** The object in which a Prometheus [Gauge] keeps its number; the number
    is what its [get()] returns. *)
Record MutexValue := { get : Z }.

(** [self.concurrent_requests._value] *)
Definition concurrent_requests_value (self : t) : MutexValue :=
  {| get := concurrent_requests self |}.

Definition update_cache_size (self : t) (size : Z) : t :=
  mk (query_counter self) (query_latency self) (concurrent_requests self)
     size (total_queries self) (cache_hits self) (cache_misses self)
     (start_time self).

(** [max(1, x)]: the second argument wins only when strictly larger. *)
Definition max1 (x : Q) : Q := if RateLimiter.gtb x 1 then x else 1.

Record Summary := {
  s_total_queries : Z;
  s_cache_hits : Z;
  s_cache_misses : Z;
  s_cache_hit_ratio : Q;
  s_uptime_seconds : Q;
  s_queries_per_second : Q
}.

(** [get_metrics_summary]; [now] is the reading of [time.time()]. *)
Definition get_metrics_summary (self : t) (now : Q) : Summary :=
  let uptime := (now - start_time self)%Q in
  {| s_total_queries := total_queries self;
     s_cache_hits := cache_hits self;
     s_cache_misses := cache_misses self;
     s_cache_hit_ratio :=
       (inject_Z (cache_hits self) / inject_Z (Z.max 1 (total_queries self)))%Q;
     s_uptime_seconds := uptime;
     s_queries_per_second := (inject_Z (total_queries self) / max1 uptime)%Q |}.

(** All latencies observed so far, over every label. *)
Definition observations (self : t) : list Q :=
  List.concat (snd <$> map_to_list (query_latency self)).

(** Queries recorded one after the other: company, latency, cache hit. *)
Definition record_all (self : t) (queries : list (string * Q * bool)) : t :=
  fold_left (fun m q => record_query m q.1.1 q.1.2 q.2) queries self.

Definition count_hits (queries : list (string * Q * bool)) : Z :=
  Z.of_nat (List.length (List.filter (fun q => q.2) queries)).

Definition count_misses (queries : list (string * Q * bool)) : Z :=
  Z.of_nat (List.length (List.filter (fun q => negb q.2) queries)).

(** The counter child of a label and the histogram child of the same label
    have seen the same number of queries. *)
Definition labels_agree (self : t) : Prop :=
  forall lbl : string * string,
    default 0%Z (query_counter self !! lbl)
    = Z.of_nat (List.length (default [] (query_latency self !! lbl))).

End MetricsManager.

Module OpenAIClient.
Record t := mk {
  client : bool;          (* [self.client] is set *)
  last_request_time : Q
}.
Definition init : t := mk false 0.
(** 50ms *)
Definition min_request_interval : Q := (5 # 100)%Q.
End OpenAIClient.

Module PineconeManager.
Record t := mk {
  index : bool            (* [self.index] is set *)
}.
Definition init : t := mk false.
End PineconeManager.

Record State := mkState {
  cache : RedisCache.t;
  metrics : MetricsManager.t;
  openai_client : OpenAIClient.t;
  vector_store : PineconeManager.t;
  ticks : nat               (* readings of the clock taken so far *)
}.

(** ** Computations: state, exceptions and the record of outside calls *)

Definition M (A : Type) : Type := State -> Res A * State * list Event.

Definition ret {A} (a : A) : M A := fun s => (Ret a, s, []).

Definition raise {A} (e : Exception) : M A := fun s => (Raise e, s, []).

Definition bind {A B} (m : M A) (f : A -> M B) : M B :=
  fun s =>
    match m s with
    | (Ret a, s1, t1) => let '(r, s2, t2) := f a s1 in (r, s2, (t1 ++ t2)%list)
    | (Raise e, s1, t1) => (Raise e, s1, t1)
    end.

Notation "'do' x <- m ;; k" := (bind m (fun x => k))
  (at level 10, x name, m at level 99, k at level 200,
   format "'[v' 'do'  x  <-  m  ;; '/' k ']'").
Notation "m ;;; k" := (bind m (fun _ => k))
  (at level 150, right associativity).

(** [try: body / except Exception as e: handler e] *)
Definition try_except {A} (body : M A) (handler : Exception -> M A) : M A :=
  fun s =>
    match body s with
    | (Ret a, s1, t1) => (Ret a, s1, t1)
    | (Raise e, s1, t1) =>
        let '(r, s2, t2) := handler e s1 in (r, s2, (t1 ++ t2)%list)
    end.

(** [try: body / finally: final]: [final] runs on every way out of [body]. *)
Definition try_finally {A} (body : M A) (final : M unit) : M A :=
  fun s =>
    let '(r, s1, t1) := body s in
    match final s1 with
    | (Ret _, s2, t2) => (r, s2, (t1 ++ t2)%list)
    | (Raise e, s2, t2) => (Raise e, s2, (t1 ++ t2)%list)
    end.

Definition gets {A} (f : State -> A) : M A := fun s => (Ret (f s), s, []).

Definition modify (f : State -> State) : M unit := fun s => (Ret tt, f s, []).

(** An outside call: it is recorded and the oracle's outcome is taken. *)
Definition call {A} (ev : Event) (outcome : Res A) : M A :=
  fun s => (outcome, s, [ev]).

Definition emit (ev : Event) : M unit := call ev (Ret tt).

(** The outcome of a step that calls nothing outside. *)
Definition from_res {A} (outcome : Res A) : M A := fun s => (outcome, s, []).

Definition set_cache (c : RedisCache.t) (s : State) : State :=
  mkState c (metrics s) (openai_client s) (vector_store s) (ticks s).
Definition set_metrics (m : MetricsManager.t) (s : State) : State :=
  mkState (cache s) m (openai_client s) (vector_store s) (ticks s).
Definition set_openai (o : OpenAIClient.t) (s : State) : State :=
  mkState (cache s) (metrics s) o (vector_store s) (ticks s).
Definition set_vector_store (v : PineconeManager.t) (s : State) : State :=
  mkState (cache s) (metrics s) (openai_client s) v (ticks s).

(** [{answer, source, latency_seconds}] and, on the error path, [error]. *)
Record QueryResult := {
  answer : string;
  source : string;
  latency_seconds : Q;
  error : option string
}.

(** The dictionary [combined_metrics] that [/metrics] returns.  Under
    [concurrent_requests] it holds the gauge's value object, not the number
    in it (the response model declares an [int] there). *)
Record MetricsSnapshot := {
  query_count : Z;
  cache_hit_ratio : Q;
  concurrent_requests : MetricsManager.MutexValue;
  average_latency : Q;
  cache_size : Z
}.

Definition nl : string := String (ascii_of_nat 10) EmptyString.

Section Service.

Variable cfg : Config.
Variable w : World.

(** [time.time()] *)
Definition time_time : M Q :=
  fun s =>
    (Ret (clock w (ticks s)),
     mkState (cache s) (metrics s) (openai_client s) (vector_store s)
             (S (ticks s)),
     []).

(** *** cache.py *)

Definition cache_connect : M unit :=
  try_except
    (call EvRedisConnect (redis_connect w) ;;;
     modify (fun s =>
       set_cache (RedisCache.mk true (RedisCache.cache_hits (cache s))
                                (RedisCache.cache_misses (cache s))) s))
    (fun e => raise e).

Definition cache_hit_inc : M unit :=
  modify (fun s =>
    set_cache (RedisCache.mk (RedisCache.redis (cache s))
                             (RedisCache.cache_hits (cache s) + 1)
                             (RedisCache.cache_misses (cache s))) s).

Definition cache_miss_inc : M unit :=
  modify (fun s =>
    set_cache (RedisCache.mk (RedisCache.redis (cache s))
                             (RedisCache.cache_hits (cache s))
                             (RedisCache.cache_misses (cache s) + 1)) s).

Definition cache_get (key : string) : M (option string) :=
  do connected <- gets (fun s => RedisCache.redis (cache s)) ;;
  (if connected then ret tt else cache_connect) ;;;
  try_except
    (do value <- call (EvRedisGet key) (redis_get w key) ;;
     match value with
     | Some v =>
         if bytes_truthy v
         then cache_hit_inc ;;;
              do text <- from_res (decode v) ;;
              ret (Some text)
         else cache_miss_inc ;;; ret None
     | None => cache_miss_inc ;;; ret None
     end)
    (fun e => cache_miss_inc ;;; ret None).

Definition cache_set (key value : string) (is_real_time : bool) : M unit :=
  do connected <- gets (fun s => RedisCache.redis (cache s)) ;;
  (if connected then ret tt else cache_connect) ;;;
  try_except
    (let ttl := if is_real_time then CACHE_TTL_REALTIME cfg
                else CACHE_TTL_HISTORICAL cfg in
     call (EvRedisSetex key ttl value) (redis_setex w key ttl value))
    (fun e => ret tt).

Record CacheStats := {
  st_cache_hits : Z;
  st_cache_misses : Z;
  st_hit_ratio : Q;
  st_cache_size : Z
}.

Definition get_cache_stats : M CacheStats :=
  do c <- gets cache ;;
  let total_requests := (RedisCache.cache_hits c + RedisCache.cache_misses c)%Z in
  let hit_ratio :=
    if (0 <? total_requests)%Z
    then (inject_Z (RedisCache.cache_hits c) / inject_Z total_requests)%Q
    else 0%Q in
  do size <- (if RedisCache.redis c
              then try_except (call EvRedisDbsize (redis_dbsize w))
                              (fun e => ret 0%Z)
              else ret 0%Z) ;;
  ret {| st_cache_hits := RedisCache.cache_hits c;
         st_cache_misses := RedisCache.cache_misses c;
         st_hit_ratio := hit_ratio;
         st_cache_size := size |}.

(** *** metrics.py, lifted to the process state *)

Definition record_query (company : string) (latency : Q) (cache_hit : bool)
  : M unit :=
  modify (fun s =>
    set_metrics (MetricsManager.record_query (metrics s) company latency cache_hit) s).

Definition increment_concurrent : M unit :=
  emit EvGaugeInc ;;;
  modify (fun s => set_metrics (MetricsManager.increment_concurrent (metrics s)) s).

Definition decrement_concurrent : M unit :=
  emit EvGaugeDec ;;;
  modify (fun s => set_metrics (MetricsManager.decrement_concurrent (metrics s)) s).

(** *** llm.py *)

Definition openai_connect_client : M unit :=
  try_except
    (call EvOpenAIConnect (openai_connect w) ;;;
     modify (fun s =>
       set_openai (OpenAIClient.mk true
                     (OpenAIClient.last_request_time (openai_client s))) s))
    (fun e => raise e).

Definition _rate_limit : M unit :=
  do current_time <- time_time ;;
  do last <- gets (fun s => OpenAIClient.last_request_time (openai_client s)) ;;
  let time_since_last := (current_time - last)%Q in
  (if RateLimiter.gtb OpenAIClient.min_request_interval time_since_last
   then emit (EvSleep (OpenAIClient.min_request_interval - time_since_last)%Q)
   else ret tt) ;;;
  do now <- time_time ;;
  modify (fun s =>
    set_openai (OpenAIClient.mk (OpenAIClient.client (openai_client s)) now) s).

Definition get_embedding_async (text : string) : M (list Q) :=
  _rate_limit ;;;
  try_except
    (call (EvEmbeddings text) (embeddings_create w text))
    (fun e => raise e).

Definition generate_answer_async (context question : string) : M string :=
  do has_client <- gets (fun s => OpenAIClient.client (openai_client s)) ;;
  (if has_client then ret tt else openai_connect_client) ;;;
  _rate_limit ;;;
  try_except
    (call (EvChatCompletion context question) (chat_completion w context question))
    (fun e => raise e).

(** *** vector_store.py *)

Definition vector_store_connect : M unit :=
  try_except
    (call EvPineconeConnect (pinecone_connect w) ;;;
     modify (set_vector_store (PineconeManager.mk true)))
    (fun e => raise e).

Definition vector_store_query (embedding : list Q) (company : string)
           (top_k : Z) : M (list Match) :=
  do has_index <- gets (fun s => PineconeManager.index (vector_store s)) ;;
  (if has_index then ret tt else vector_store_connect) ;;;
  try_except
    (call (EvIndexQuery embedding company top_k)
          (index_query w embedding company top_k))
    (fun e => ret []).

End Service.

(** ** rag_pipeline.py *)

(** [d.get(k, dflt)] *)
Definition dict_get (d : gmap string string) (k dflt : string) : string :=
  default dflt (d !! k).

(** [score < 0.7], with [match.get('score', 0)] *)
Definition below_floor (m : Match) : bool :=
  RateLimiter.gtb (7 # 10) (default 0%Q (m_score m)).

(** The labelled block built for one retained match. *)
Definition doc_context (m : Match) : string :=
  let metadata := default ∅ (m_metadata m) in
  dict_get metadata "company" "Unknown" ++ " "
  ++ dict_get metadata "report_type" "Report" ++ " ("
  ++ dict_get metadata "report_date" "Unknown date" ++ "):" ++ nl
  ++ dict_get metadata "content" "".

(** The list [context_parts] at the end of the loop. *)
Fixpoint context_parts (matches : list Match) : list string :=
  match matches with
  | [] => []
  | m :: rest =>
      if below_floor m then context_parts rest
      else doc_context m :: context_parts rest
  end.

Definition _build_context (matches : list Match) : string :=
  String.concat (nl ++ nl) (context_parts matches).

Definition real_time_indicators : list string :=
  [ "current"; "latest"; "now"; "today"; "present"; "recent";
    "this quarter"; "this year"; "this month"; "this week" ].

Definition _is_real_time_query (question : string) : bool :=
  let question_lower := PyStr.lower question in
  existsb (fun indicator => PyStr.contains indicator question_lower)
          real_time_indicators.

(** truth value of an [Optional[str]]: [if cached_answer:] *)
Definition opt_truthy (o : option string) : bool :=
  match o with Some v => PyStr.truthy v | None => false end.

Definition insufficient_answer (company : string) : string :=
  "I don't have enough information about " ++ company
  ++ " to answer this question.".

Definition error_answer : string :=
  "Sorry, I encountered an error while processing your question.".

Section Pipeline.

Variable cfg : Config.
Variable w : World.

Definition _record_query_metrics (company question : string) (latency : Q)
           (cache_hit : bool) (api_key : string) : M unit :=
  try_except
    (let hit := if cache_hit then 1%Z else 0%Z in
     call (EvDbCommit question company latency hit api_key)
          (db_commit w question company latency hit api_key))
    (fun e => ret tt).

(** [time.time() - start_time] *)
Definition elapsed (start_time : Q) : M Q :=
  do now <- time_time w ;; ret (now - start_time)%Q.

(** The [try] block of [process_query] with its [except] clause: all that
    happens between the two gauge operations. *)
Definition process_query_body (company question api_key : string)
           (start_time : Q) : M QueryResult :=
  (try_except
     (let cache_key := get_cache_key company question in
      do cached_answer <- cache_get w cache_key ;;
      if opt_truthy cached_answer then
          do latency <- elapsed start_time ;;
          record_query company latency true ;;;
          _record_query_metrics company question latency true api_key ;;;
          ret {| answer := default "" cached_answer; source := "cache";
                 latency_seconds := latency; error := None |}
      else
          do question_embedding <- get_embedding_async w question ;;
          do matches <- vector_store_query w question_embedding company 10 ;;
          match matches with
          | [] =>
              do latency <- elapsed start_time ;;
              ret {| answer := insufficient_answer company;
                     source := "generated";
                     latency_seconds := latency; error := None |}
          | _ :: _ =>
              let context := _build_context matches in
              do generated <- generate_answer_async w context question ;;
              let is_real_time := _is_real_time_query question in
              cache_set cfg w cache_key generated is_real_time ;;;
              do latency <- elapsed start_time ;;
              record_query company latency false ;;;
              _record_query_metrics company question latency false api_key ;;;
              ret {| answer := generated; source := "generated";
                     latency_seconds := latency; error := None |}
          end)
     (fun e =>
        do latency <- elapsed start_time ;;
        ret {| answer := error_answer; source := "error";
               latency_seconds := latency; error := Some (str_exc e) |})).

Definition process_query (company question api_key : string) : M QueryResult :=
  do start_time <- time_time w ;;
  increment_concurrent ;;;
  try_finally
    (process_query_body company question api_key start_time)
    decrement_concurrent.

(** *** api.py: the [/metrics] handler *)

Definition get_metrics : M MetricsSnapshot :=
  do now <- time_time w ;;
  do m <- gets metrics ;;
  let metrics_summary := MetricsManager.get_metrics_summary m now in
  do cache_stats <- get_cache_stats w ;;
  ret {| query_count := MetricsManager.s_total_queries metrics_summary;
         cache_hit_ratio := st_hit_ratio cache_stats;
         concurrent_requests := MetricsManager.concurrent_requests_value m;
         average_latency := MetricsManager.s_queries_per_second metrics_summary;
         cache_size := st_cache_size cache_stats |}.

End Pipeline.

(** A burst of queries, each one run to completion against the world it
    meets. *)
Record Query := {
  q_world : World;
  q_company : string;
  q_question : string;
  q_api_key : string
}.

Fixpoint run_queries (cfg : Config) (qs : list Query) (s : State)
  : list (Res QueryResult) * State * list Event :=
  match qs with
  | [] => ([], s, [])
  | q :: rest =>
      let '(r, s1, t1) :=
        process_query cfg (q_world q) (q_company q) (q_question q) (q_api_key q) s in
      let '(rs, s2, t2) := run_queries cfg rest s1 in
      (r :: rs, s2, (t1 ++ t2)%list)
  end.

(** ** Reading a record of outside calls *)

Definition is_cache_write (ev : Event) : bool :=
  match ev with EvRedisSetex _ _ _ => true | _ => false end.

Definition is_generation (ev : Event) : bool :=
  match ev with EvChatCompletion _ _ => true | _ => false end.

Definition is_embedding (ev : Event) : bool :=
  match ev with EvEmbeddings _ => true | _ => false end.

Definition is_gauge_inc (ev : Event) : bool :=
  match ev with EvGaugeInc => true | _ => false end.

Definition is_gauge_dec (ev : Event) : bool :=
  match ev with EvGaugeDec => true | _ => false end.

Definition gauge (s : State) : Z := MetricsManager.concurrent_requests (metrics s).

(** The mean of the latencies handed to [record_query] so far. *)
Definition mean_recorded_latency (m : MetricsManager.t) : Q :=
  let obs := MetricsManager.observations m in
  (fold_right Qplus 0 obs / inject_Z (Z.of_nat (List.length obs)))%Q.

Definition initial_state (now : Q) : State :=
  mkState RedisCache.init (MetricsManager.init now) OpenAIClient.init
          PineconeManager.init 0.

(** The calls the properties below speak about: cache writes, provider
    calls, index queries and the two gauge operations. *)
Definition observable (ev : Event) : bool :=
  match ev with
  | EvRedisSetex _ _ _ | EvEmbeddings _ | EvChatCompletion _ _
  | EvIndexQuery _ _ _ | EvGaugeInc | EvGaugeDec => true
  | _ => false
  end.

Definition observed (t : list Event) : list Event := List.filter observable t.

(** The four dictionaries [process_query] can return. *)
Definition cached_result (v : string) (lat : Q) : QueryResult :=
  {| answer := v; source := "cache"; latency_seconds := lat; error := None |}.

Definition insufficient_result (company : string) (lat : Q) : QueryResult :=
  {| answer := insufficient_answer company; source := "generated";
     latency_seconds := lat; error := None |}.

Definition generated_result (a : string) (lat : Q) : QueryResult :=
  {| answer := a; source := "generated"; latency_seconds := lat; error := None |}.

Definition error_result (e : Exception) (lat : Q) : QueryResult :=
  {| answer := error_answer; source := "error"; latency_seconds := lat;
     error := Some (str_exc e) |}.

(** The TTL [cache.set] passes to [setex]. *)
Definition ttl_for (cfg : Config) (is_real_time : bool) : Z :=
  if is_real_time then CACHE_TTL_REALTIME cfg else CACHE_TTL_HISTORICAL cfg.

(** The ways through [process_query]: what it returns and which observable
    calls it makes, in order, against what the collaborators answered. *)
Inductive Served (cfg : Config) (w : World) (company question : string)
  : QueryResult -> list Event -> Prop :=
| ServedCacheDown e lat :
    redis_connect w = Raise e ->
    Served cfg w company question (error_result e lat) [EvGaugeInc; EvGaugeDec]
| ServedHit v lat :
    redis_get w (get_cache_key company question) = Ret (Some (Encoded v)) ->
    PyStr.truthy v = true ->
    Served cfg w company question (cached_result v lat) [EvGaugeInc; EvGaugeDec]
| ServedEmbedFailed e lat :
    embeddings_create w question = Raise e ->
    Served cfg w company question (error_result e lat)
           [EvGaugeInc; EvEmbeddings question; EvGaugeDec]
| ServedIndexDown emb e lat :
    embeddings_create w question = Ret emb ->
    pinecone_connect w = Raise e ->
    Served cfg w company question (error_result e lat)
           [EvGaugeInc; EvEmbeddings question; EvGaugeDec]
| ServedNoMatches emb lat :
    embeddings_create w question = Ret emb ->
    (index_query w emb company 10 = Ret []
     \/ exists e, index_query w emb company 10 = Raise e) ->
    Served cfg w company question (insufficient_result company lat)
           [EvGaugeInc; EvEmbeddings question; EvIndexQuery emb company 10;
            EvGaugeDec]
| ServedOpenAIDown emb ms e lat :
    embeddings_create w question = Ret emb ->
    index_query w emb company 10 = Ret ms -> ms <> [] ->
    openai_connect w = Raise e ->
    Served cfg w company question (error_result e lat)
           [EvGaugeInc; EvEmbeddings question; EvIndexQuery emb company 10;
            EvGaugeDec]
| ServedGenerationFailed emb ms e lat :
    embeddings_create w question = Ret emb ->
    index_query w emb company 10 = Ret ms -> ms <> [] ->
    chat_completion w (_build_context ms) question = Raise e ->
    Served cfg w company question (error_result e lat)
           [EvGaugeInc; EvEmbeddings question; EvIndexQuery emb company 10;
            EvChatCompletion (_build_context ms) question; EvGaugeDec]
| ServedGenerated emb ms a lat :
    embeddings_create w question = Ret emb ->
    index_query w emb company 10 = Ret ms -> ms <> [] ->
    chat_completion w (_build_context ms) question = Ret a ->
    Served cfg w company question (generated_result a lat)
           [EvGaugeInc; EvEmbeddings question; EvIndexQuery emb company 10;
            EvChatCompletion (_build_context ms) question;
            EvRedisSetex (get_cache_key company question)
                         (ttl_for cfg (_is_real_time_query question)) a;
            EvGaugeDec].

(** [vector_store.query] came back with no match: the index answered with
    an empty list, or the query raised and the handler returned []. *)
Definition search_came_back_empty (w : World) (company : string)
           (t : list Event) : Prop :=
  exists emb top_k,
    In (EvIndexQuery emb company top_k) t
    /\ (index_query w emb company top_k = Ret []
        \/ exists e, index_query w emb company top_k = Raise e).

(** The value a run returned, if it returned one. *)
Definition returned {A} (run : Res A * State * list Event) : option A :=
  match run.1.1 with Ret a => Some a | Raise _ => None end.

Definition final_state {R} (run : R * State * list Event) : State := run.1.2.

Definition trace {R} (run : R * State * list Event) : list Event := run.2.

(** The form of a string that case and surrounding white space cannot
    change. *)
Definition normalized (s : string) : string := PyStr.strip (PyStr.lower s).

(** A world in which every collaborator answers, Redis holds one entry
    (under [stored_key]) and the index returns [matches]. *)
Definition healthy_world (stored_key stored_value : string)
           (matches : list Match) : World :=
  {| clock := fun n => inject_Z (Z.of_nat n);
     redis_connect := Ret tt;
     redis_get := fun k =>
       if String.eqb k stored_key then Ret (Some (Encoded stored_value))
       else Ret None;
     redis_setex := fun _ _ _ => Ret tt;
     redis_dbsize := Ret 1%Z;
     openai_connect := Ret tt;
     embeddings_create := fun _ => Ret [(1 # 2)%Q; (1 # 3)%Q];
     chat_completion := fun _ _ => Ret "Revenue grew.";
     pinecone_connect := Ret tt;
     index_query := fun _ _ _ => Ret matches;
     db_commit := fun _ _ _ _ _ => Ret tt |}.

(** C2's pruning rule read to the letter: a timestamp of the window is
    dropped exactly when it is older than [now - window_seconds]. *)
Definition prune_drops_exactly_older : Prop :=
  forall (self : RateLimiter.t) (now x : Q) (l : list Q),
    In x l ->
    (~ In x (RateLimiter.prune self now l)
     <-> (x < now - inject_Z (RateLimiter.window_seconds self))%Q).

(** C4, as the claim states it: the key would depend on the normalized
    company and the normalized question only. *)
Definition key_normalizes_both_components : Prop :=
  forall c c' q q' : string,
    normalized c = normalized c' -> normalized q = normalized q' ->
    get_cache_key c q = get_cache_key c' q'.

(** The same world with Redis unreachable. *)
Definition redis_unreachable (w : World) : World :=
  let refused := Exc "Connection refused" in
  {| clock := clock w;
     redis_connect := Raise refused;
     redis_get := fun _ => Raise refused;
     redis_setex := fun _ _ _ => Raise refused;
     redis_dbsize := Raise refused;
     openai_connect := openai_connect w;
     embeddings_create := embeddings_create w;
     chat_completion := chat_completion w;
     pinecone_connect := pinecone_connect w;
     index_query := index_query w;
     db_commit := db_commit w |}.

(** The same world with the embedding endpoint failing. *)
Definition embeddings_failing (w : World) : World :=
  {| clock := clock w;
     redis_connect := redis_connect w;
     redis_get := redis_get w;
     redis_setex := redis_setex w;
     redis_dbsize := redis_dbsize w;
     openai_connect := openai_connect w;
     embeddings_create := fun _ => Raise (Exc "Read timed out");
     chat_completion := chat_completion w;
     pinecone_connect := pinecone_connect w;
     index_query := index_query w;
     db_commit := db_commit w |}.

(** The state once [startup_event] has opened the Redis pool. *)
Definition started_state (now : Q) : State :=
  mkState (RedisCache.mk true 0 0) (MetricsManager.init now) OpenAIClient.init
          PineconeManager.init 0.

(** One match as Pinecone returns it. *)
Definition apple_match (score : Q) : Match :=
  {| m_score := Some score;
     m_metadata := Some {[ "company" := "Apple"; "report_type" := "10-K";
                          "report_date" := "2023-09-30";
                          "content" := "Net sales were 383 billion." ]} |}.

(** A provider call of the run raised [e]. *)
Definition provider_call_raised (w : World) (t : list Event) (e : Exception)
  : Prop :=
  (exists text, In (EvEmbeddings text) t /\ embeddings_create w text = Raise e)
  \/ (exists context question,
        In (EvChatCompletion context question) t
        /\ chat_completion w context question = Raise e).

(** C3, as the claim states it: after an empty search the source would be
    neither 'generated' nor 'error'. *)
Definition empty_search_has_own_source : Prop :=
  forall (cfg : Config) (w : World) (company question api_key : string)
         (s : State),
    let run := process_query cfg w company question api_key s in
    search_came_back_empty w company (trace run) ->
    exists r, returned run = Some r
              /\ source r <> "generated" /\ source r <> "error".

(** ** Reading what a query leaves behind *)

(** What a lookup of [key] can give: the stored text, unless the key is
    missing, the text is empty, the bytes are not UTF-8 or [redis.get]
    raises. *)
Definition usable_entry (w : World) (key : string) : option string :=
  match redis_get w key with
  | Ret (Some (Encoded v)) => if PyStr.truthy v then Some v else None
  | _ => None
  end.

Definition is_db_commit (ev : Event) : bool :=
  match ev with EvDbCommit _ _ _ _ _ => true | _ => false end.

(** The audit rows a run tried to write. *)
Definition audited (t : list Event) : list Event := List.filter is_db_commit t.



(** An operation that touches neither the metrics nor the audit table. *)
Definition quiet {A} (op : M A) : Prop :=
  forall s, metrics (final_state (op s)) = metrics s
            /\ audited (trace (op s)) = [].

(** ** api.py: the gate in front of the pipeline *)

(** How a handler ends: a body, an [HTTPException] it raised, or any other
    exception that escaped it. *)
Inductive Response (A : Type) : Type :=
| Ok (body : A)
| HTTPException (status_code : Z) (detail : string)
| ServerError (e : Exception).
Arguments Ok {A} body.
Arguments HTTPException {A} status_code detail.
Arguments ServerError {A} e.

(** The process-wide objects a handler works on. *)
Record Server := mkServer {
  rate_limiter : RateLimiter.t;
  process : State
}.

(** [validate_api_key] returns the key when this holds and raises 401
    otherwise. *)
Definition valid_api_key (api_key : string) : bool :=
  PyStr.truthy api_key && (8 <=? String.length api_key)%nat.

(** [query_endpoint]; the state returned is the one left once the
    background task it queued has run. *)
Definition query_endpoint (cfg : Config) (w : World)
           (company question api_key : string) (srv : Server)
  : Response QueryResult * Server * list Event :=
  if negb (valid_api_key api_key)
  then (HTTPException 401 "Invalid API key", srv, [])
  else
    match time_time w (process srv) with
    | (Raise e, st1, t0) => (ServerError e, mkServer (rate_limiter srv) st1, t0)
    | (Ret current_time, st1, t0) =>
        let '(admitted, limiter1) :=
          RateLimiter.check_rate_limit (rate_limiter srv) current_time api_key in
        if negb admitted
        then (HTTPException 429 "Rate limit exceeded", mkServer limiter1 st1, t0)
        else
          match process_query cfg w company question api_key st1 with
          | (Raise e, st2, t) => (ServerError e, mkServer limiter1 st2, (t0 ++ t)%list)
          | (Ret result, st2, t) =>
              if RedisCache.redis (cache st2)
              then
                match redis_dbsize w with
                | Raise e =>
                    (ServerError e, mkServer limiter1 st2,
                     (t0 ++ t ++ [EvRedisDbsize])%list)
                | Ret size =>
                    (Ok result,
                     mkServer limiter1
                       (set_metrics
                          (MetricsManager.update_cache_size (metrics st2) size)
                          st2),
                     (t0 ++ t ++ [EvRedisDbsize])%list)
                end
              else (Ok result, mkServer limiter1 st2, (t0 ++ t)%list)
          end
    end.

(** ** document_processor.py *)

Module Ingest.

(** One vector as it is handed to Pinecone: id, embedding, metadata. *)
Definition Vector : Type := string * list Q * gmap string (option string).

(** What ingestion does outside the process: the calls of the query side
    it shares ([ICore]), the upsert and the insert into [financial_reports]. *)
Inductive IEvent :=
| ICore (ev : Event)
| IUpsert (vectors : list Vector)
| IReportCommit (company report_type : string) (report_date : option string)
                (section content embedding_id : string).

(** The collaborators of ingestion.  [uuid4_hex n] is the hex form of the
    UUID drawn when the clock has been read [n] times; [fromisoformat]
    answers [None] where [datetime.fromisoformat] raises [ValueError];
    a [report_date] of [None] in a commit stands for [datetime.now()]. *)
Record IWorld := {
  core : World;
  uuid4_hex : nat -> string;
  index_upsert : list Vector -> Res unit;
  fromisoformat : string -> option string;
  report_commit : string -> string -> option string -> string -> string ->
                  string -> Res unit
}.

Definition MI (A : Type) : Type := State -> Res A * State * list IEvent.

Definition iret {A} (a : A) : MI A := fun s => (Ret a, s, []).

Definition iraise {A} (e : Exception) : MI A := fun s => (Raise e, s, []).

Definition ibind {A B} (m : MI A) (f : A -> MI B) : MI B :=
  fun s =>
    match m s with
    | (Ret a, s1, t1) => let '(r, s2, t2) := f a s1 in (r, s2, (t1 ++ t2)%list)
    | (Raise e, s1, t1) => (Raise e, s1, t1)
    end.

Definition itry_except {A} (body : MI A) (handler : Exception -> MI A) : MI A :=
  fun s =>
    match body s with
    | (Ret a, s1, t1) => (Ret a, s1, t1)
    | (Raise e, s1, t1) =>
        let '(r, s2, t2) := handler e s1 in (r, s2, (t1 ++ t2)%list)
    end.

Definition icall {A} (ev : IEvent) (outcome : Res A) : MI A :=
  fun s => (outcome, s, [ev]).

(** A computation of the query side, run as part of ingestion. *)
Definition lift {A} (m : M A) : MI A :=
  fun s => let '(r, s1, t) := m s in (r, s1, ICore <$> t).

Notation "'ido' x <- m ;; k" := (ibind m (fun x => k))
  (at level 10, x name, m at level 99, k at level 200,
   format "'[v' 'ido'  x  <-  m  ;; '/' k ']'").
Notation "m ;;;; k" := (ibind m (fun _ => k))
  (at level 150, right associativity).

(** [{success, document_id, error, processing_time}] *)
Record IngestResult := {
  success : bool;
  document_id : option string;
  ingest_error : option string;
  processing_time : Q
}.

(** [{total_documents, successful, failed, processing_time}] *)
Record BatchResult := {
  total_documents : Z;
  successful : Z;
  failed : Z;
  batch_processing_time : Q
}.

Definition missing_fields_error : string :=
  "Missing required fields: company, report_type, report_date, content".

(** [x or "General"] *)
Definition or_general (section : option string) : string :=
  match section with
  | Some v => if PyStr.truthy v then v else "General"
  | None => "General"
  end.

(** The metadata stored with the vector; [content[:300]] is the preview. *)
Definition metadata_of (company report_type report_date : string)
           (section : option string) (content : string)
  : gmap string (option string) :=
  {[ "company" := Some company;
     "report_type" := Some report_type;
     "report_date" := Some report_date;
     "section" := section;
     "content" := Some (substring 0 300 content) ]}.

(** [f"{company}_{report_type}_{report_date}_{uuid.uuid4().hex[:8]}"] *)
Definition doc_id_of (company report_type report_date hex : string) : string :=
  company ++ "_" ++ report_type ++ "_" ++ report_date ++ "_" ++ substring 0 8 hex.

Section Processor.

Variable iw : IWorld.

(** [vector_store.upsert_documents] *)
Definition upsert_documents (documents : list Vector) : MI unit :=
  ido has_index <- lift (gets (fun s => PineconeManager.index (vector_store s))) ;;
  (if has_index then iret tt else lift (vector_store_connect (core iw))) ;;;;
  itry_except
    (icall (IUpsert documents) (index_upsert iw documents))
    (fun e => iraise e).

Definition _store_in_database (doc_id company report_type report_date : string)
           (section : option string) (content : string) : MI unit :=
  itry_except
    (let parsed_date := fromisoformat iw report_date in
     let section' := or_general section in
     icall (IReportCommit company report_type parsed_date section' content doc_id)
           (report_commit iw company report_type parsed_date section' content
                          doc_id))
    (fun e => iraise e).

Definition process_document (document : gmap string string) : MI IngestResult :=
  ido start_time <- lift (time_time (core iw)) ;;
  itry_except
    (let company := document !! "company" in
     let report_type := document !! "report_type" in
     let report_date := document !! "report_date" in
     let section := document !! "section" in
     let content := document !! "content" in
     if negb (forallb opt_truthy [company; report_type; report_date; content])
     then
       ido elapsed_time <- lift (elapsed (core iw) start_time) ;;
       iret {| success := false; document_id := None;
               ingest_error := Some missing_fields_error;
               processing_time := elapsed_time |}
     else
       let company := default "" company in
       let report_type := default "" report_type in
       let report_date := default "" report_date in
       let content := default "" content in
       ido hex <- lift (gets (fun s => uuid4_hex iw (ticks s))) ;;
       let doc_id := doc_id_of company report_type report_date hex in
       ido embedding <- lift (get_embedding_async (core iw) content) ;;
       let metadata :=
         metadata_of company report_type report_date section content in
       upsert_documents [(doc_id, embedding, metadata)] ;;;;
       _store_in_database doc_id company report_type report_date section
                          content ;;;;
       ido elapsed_time <- lift (elapsed (core iw) start_time) ;;
       iret {| success := true; document_id := Some doc_id;
               ingest_error := None; processing_time := elapsed_time |})
    (fun e =>
       ido elapsed_time <- lift (elapsed (core iw) start_time) ;;
       iret {| success := false; document_id := None;
               ingest_error := Some (str_exc e);
               processing_time := elapsed_time |}).

(** The loop of [batch_process_documents]: the list [results]. *)
Fixpoint process_each (documents : list (gmap string string))
  : MI (list IngestResult) :=
  match documents with
  | [] => iret []
  | document :: rest =>
      ido result <- process_document document ;;
      ido results <- process_each rest ;;
      iret (result :: results)
  end.

Definition batch_process_documents (documents : list (gmap string string))
  : MI BatchResult :=
  ido start_time <- lift (time_time (core iw)) ;;
  ido results <- process_each documents ;;
  let successful :=
    Z.of_nat (List.length (List.filter success results)) in
  let failed := (Z.of_nat (List.length results) - successful)%Z in
  ido elapsed_time <- lift (elapsed (core iw) start_time) ;;
  iret {| total_documents := Z.of_nat (List.length documents);
          successful := successful;
          failed := failed;
          batch_processing_time := elapsed_time |}.

End Processor.

(** The calls of ingestion that matter to whoever reads the index or the
    table: the embedding call, the upsert and the commit. *)
Definition durable (ev : IEvent) : bool :=
  match ev with
  | ICore (EvEmbeddings _) | IUpsert _ | IReportCommit _ _ _ _ _ _ => true
  | _ => false
  end.

Definition idurable (t : list IEvent) : list IEvent := List.filter durable t.

Definition rejected (lat : Q) : IngestResult :=
  {| success := false; document_id := None;
     ingest_error := Some missing_fields_error; processing_time := lat |}.

Definition failed_with (e : Exception) (lat : Q) : IngestResult :=
  {| success := false; document_id := None;
     ingest_error := Some (str_exc e); processing_time := lat |}.

Definition stored (doc_id : string) (lat : Q) : IngestResult :=
  {| success := true; document_id := Some doc_id;
     ingest_error := None; processing_time := lat |}.

(** The fields [process_document] reads from a document. *)
Record Fields := {
  f_company : string;
  f_report_type : string;
  f_report_date : string;
  f_section : option string;
  f_content : string
}.

Definition fields_of (document : gmap string string) : Fields :=
  {| f_company := default "" (document !! "company");
     f_report_type := default "" (document !! "report_type");
     f_report_date := default "" (document !! "report_date");
     f_section := document !! "section";
     f_content := default "" (document !! "content") |}.

(** All four required fields are present and not empty. *)
Definition complete (document : gmap string string) : bool :=
  forallb opt_truthy
          [document !! "company"; document !! "report_type";
           document !! "report_date"; document !! "content"].

Definition vector_of (f : Fields) (doc_id : string) (embedding : list Q) : Vector :=
  (doc_id, embedding,
   metadata_of (f_company f) (f_report_type f) (f_report_date f) (f_section f)
               (f_content f)).

Definition commit_of (iw : IWorld) (f : Fields) (doc_id : string) : IEvent :=
  IReportCommit (f_company f) (f_report_type f)
                (fromisoformat iw (f_report_date f)) (or_general (f_section f))
                (f_content f) doc_id.

Definition commit_outcome (iw : IWorld) (f : Fields) (doc_id : string) : Res unit :=
  report_commit iw (f_company f) (f_report_type f)
                (fromisoformat iw (f_report_date f)) (or_general (f_section f))
                (f_content f) doc_id.

(** The ways through [process_document]: what it returns and which durable
    calls it makes, in order, against what the collaborators answered. *)
Inductive Ingested (iw : IWorld) (document : gmap string string)
          (doc_id : string) : IngestResult -> list IEvent -> Prop :=
| IngestRejected lat :
    complete document = false ->
    Ingested iw document doc_id (rejected lat) []
| IngestEmbedFailed e lat :
    complete document = true ->
    embeddings_create (core iw) (f_content (fields_of document)) = Raise e ->
    Ingested iw document doc_id (failed_with e lat)
             [ICore (EvEmbeddings (f_content (fields_of document)))]
| IngestIndexDown emb e lat :
    complete document = true ->
    embeddings_create (core iw) (f_content (fields_of document)) = Ret emb ->
    pinecone_connect (core iw) = Raise e ->
    Ingested iw document doc_id (failed_with e lat)
             [ICore (EvEmbeddings (f_content (fields_of document)))]
| IngestUpsertFailed emb e lat :
    complete document = true ->
    embeddings_create (core iw) (f_content (fields_of document)) = Ret emb ->
    index_upsert iw [vector_of (fields_of document) doc_id emb] = Raise e ->
    Ingested iw document doc_id (failed_with e lat)
             [ICore (EvEmbeddings (f_content (fields_of document)));
              IUpsert [vector_of (fields_of document) doc_id emb]]
| IngestStoreFailed emb e lat :
    complete document = true ->
    embeddings_create (core iw) (f_content (fields_of document)) = Ret emb ->
    index_upsert iw [vector_of (fields_of document) doc_id emb] = Ret tt ->
    commit_outcome iw (fields_of document) doc_id = Raise e ->
    Ingested iw document doc_id (failed_with e lat)
             [ICore (EvEmbeddings (f_content (fields_of document)));
              IUpsert [vector_of (fields_of document) doc_id emb];
              commit_of iw (fields_of document) doc_id]
| IngestStored emb lat :
    complete document = true ->
    embeddings_create (core iw) (f_content (fields_of document)) = Ret emb ->
    index_upsert iw [vector_of (fields_of document) doc_id emb] = Ret tt ->
    commit_outcome iw (fields_of document) doc_id = Ret tt ->
    Ingested iw document doc_id (stored doc_id lat)
             [ICore (EvEmbeddings (f_content (fields_of document)));
              IUpsert [vector_of (fields_of document) doc_id emb];
              commit_of iw (fields_of document) doc_id].

Definition is_embedding_call (ev : IEvent) : bool :=
  match ev with ICore (EvEmbeddings _) => true | _ => false end.

(** The id [process_document] gives a document when it starts in [s]. *)
Definition doc_id_at (iw : IWorld) (document : gmap string string) (s : State)
  : string :=
  let f := fields_of document in
  doc_id_of (f_company f) (f_report_type f) (f_report_date f)
            (uuid4_hex iw (S (ticks s))).

(** Collaborators of ingestion that all answer; the commit outcome is
    given. *)
Definition sample_world (commit : Res unit) : IWorld :=
  {| core := healthy_world "" "" [];
     uuid4_hex := fun _ => "0123456789abcdef0123456789abcdef";
     index_upsert := fun _ => Ret tt;
     fromisoformat := fun d => Some d;
     report_commit := fun _ _ _ _ _ _ => commit |}.

Definition sample_document : gmap string string :=
  {[ "company" := "Apple"; "report_type" := "10-K";
     "report_date" := "2023-09-30";
     "content" := "Net sales were 383 billion." ]}.

End Ingest.

(** ** Sample values for the instances *)

(** A limiter of one request per minute that has admitted a call at 0. *)
Definition used_limiter : RateLimiter.t :=
  (RateLimiter.check_rate_limit (RateLimiter.init 1 60) 0 "tenant-1").2.

(** A world whose cache holds ["v"] under ["k"] and whose index is empty. *)
Definition warm_world : World := healthy_world "k" "v" [].

(** The same world, in which Redis holds bytes that are not UTF-8 under
    every key. *)
Definition redis_garbled (w : World) : World :=
  {| clock := clock w;
     redis_connect := redis_connect w;
     redis_get := fun _ => Ret (Some Malformed);
     redis_setex := redis_setex w;
     redis_dbsize := redis_dbsize w;
     openai_connect := openai_connect w;
     embeddings_create := embeddings_create w;
     chat_completion := chat_completion w;
     pinecone_connect := pinecone_connect w;
     index_query := index_query w;
     db_commit := db_commit w |}.

(** A server at start-up with the given limit per minute. *)
Definition fresh_server (max_requests : Z) : Server :=
  mkServer (RateLimiter.init max_requests 60) (initial_state 0).

(** * Properties *)

(** ** Strings *)

Example strip_lower_question :
  PyStr.strip (PyStr.lower "  What is Revenue? ") = "what is revenue?".
Proof. reflexivity. Qed.

Example contains_now_in_know : PyStr.contains "now" "do you know" = true.
Proof. reflexivity. Qed.

Module PyStrFacts.
Import PyStr.

#[local] Arguments String.append !s1 s2 : simpl nomatch.

Lemma append_nil_r (s : string) : s ++ "" = s.
Proof. induction s as [|c s IH]; simpl; [reflexivity | now rewrite IH]. Qed.

Lemma append_assoc (a b c : string) : (a ++ b) ++ c = a ++ (b ++ c).
Proof. induction a as [|x a IH]; simpl; [reflexivity | now rewrite IH]. Qed.

Lemma length_append (a b : string) :
  String.length (a ++ b) = (String.length a + String.length b)%nat.
Proof. induction a as [|x a IH]; simpl; [reflexivity | now rewrite IH]. Qed.

Lemma append_inv_head (p a b : string) : p ++ a = p ++ b -> a = b.
Proof.
  induction p as [|x p IH]; simpl; intros H; [exact H|].
  injection H as H. now apply IH.
Qed.

Lemma append_inv_tail (t a b : string) : a ++ t = b ++ t -> a = b.
Proof.
  revert b. induction a as [|x a IH]; intros [|y b] H; simpl in H.
  - reflexivity.
  - apply (f_equal String.length) in H. simpl in H.
    rewrite length_append in H. lia.
  - apply (f_equal String.length) in H. simpl in H.
    rewrite length_append in H. lia.
  - injection H as -> H. f_equal. now apply IH.
Qed.

Lemma lower_app (a b : string) : lower (a ++ b) = lower a ++ lower b.
Proof. induction a as [|x a IH]; simpl; [reflexivity | now rewrite IH]. Qed.

Lemma length_lower (s : string) : String.length (lower s) = String.length s.
Proof. induction s as [|c s IH]; simpl; [reflexivity | now rewrite IH]. Qed.

(** Lower-casing never turns a character into, or out of, white space. *)
Lemma is_space_lower_char (c : ascii) : is_space (lower_char c) = is_space c.
Proof.
  destruct c as [[] [] [] [] [] [] [] []]; vm_compute; reflexivity.
Qed.

Lemma lower_char_idem (c : ascii) : lower_char (lower_char c) = lower_char c.
Proof.
  destruct c as [[] [] [] [] [] [] [] []]; vm_compute; reflexivity.
Qed.

Lemma lower_idem (s : string) : lower (lower s) = lower s.
Proof.
  induction s as [|c s IH]; simpl; [reflexivity|].
  now rewrite lower_char_idem, IH.
Qed.

Lemma all_space_lower (s : string) : all_space (lower s) = all_space s.
Proof.
  induction s as [|c s IH]; simpl; [reflexivity|].
  now rewrite is_space_lower_char, IH.
Qed.

Lemma lstrip_app_space (pre s : string) :
  all_space pre = true -> lstrip (pre ++ s) = lstrip s.
Proof.
  induction pre as [|c pre IH]; simpl; [reflexivity|].
  intros [Hc Hpre]%andb_prop. rewrite Hc. now apply IH.
Qed.

Lemma lstrip_all_space (s : string) : all_space s = true -> lstrip s = "".
Proof.
  induction s as [|c s IH]; simpl; [reflexivity|].
  intros [Hc Hs]%andb_prop. rewrite Hc. now apply IH.
Qed.

Lemma rstrip_all_space (s : string) : all_space s = true -> rstrip s = "".
Proof.
  induction s as [|c s IH]; simpl; [reflexivity|].
  intros [Hc Hs]%andb_prop. now rewrite (IH Hs), Hc.
Qed.

Lemma rstrip_app_space (s post : string) :
  all_space post = true -> rstrip (s ++ post) = rstrip s.
Proof.
  intros Hpost. induction s as [|c s IH]; simpl.
  - now apply rstrip_all_space.
  - now rewrite IH.
Qed.

Lemma strip_app_space_r (s post : string) :
  all_space post = true -> strip (s ++ post) = strip s.
Proof.
  intros Hpost. unfold strip. induction s as [|c s IH]; simpl.
  - now rewrite lstrip_all_space.
  - destruct (is_space c); [exact IH|].
    change (String c (s ++ post)) with (String c s ++ post).
    now apply rstrip_app_space.
Qed.

(** White space around a string does not survive [strip]. *)
Lemma strip_padding (pre s post : string) :
  all_space pre = true -> all_space post = true ->
  strip (pre ++ s ++ post) = strip s.
Proof.
  intros Hpre Hpost.
  transitivity (strip (s ++ post)).
  - unfold strip. now rewrite lstrip_app_space.
  - now apply strip_app_space_r.
Qed.

Lemma startswith_spec (p s : string) :
  startswith p s = true <-> exists post, s = p ++ post.
Proof.
  revert s. induction p as [|a p IH]; intros s; simpl.
  - split; [intros _; now exists s | reflexivity].
  - destruct s as [|b s].
    + split; [discriminate | intros [post H]; discriminate].
    + rewrite andb_true_iff, Ascii.eqb_eq, IH. split.
      * intros [-> [post ->]]. now exists post.
      * intros [post H]. injection H as -> ->. split; [reflexivity | now exists post].
Qed.

(** [contains p s] holds exactly when [p] occurs in [s]. *)
Lemma contains_spec (p s : string) :
  contains p s = true <-> exists pre post, s = pre ++ p ++ post.
Proof.
  induction s as [|b s IH].
  - simpl. rewrite orb_false_r, startswith_spec. split.
    + intros [post H]. now exists "", post.
    + intros [[|c pre] [post H]]; [now exists post | discriminate].
  - cbn [contains]. rewrite orb_true_iff, startswith_spec, IH. split.
    + intros [[post H] | [pre [post H]]].
      * now exists "", post.
      * exists (String b pre), post. simpl. now rewrite H.
    + intros [[|c pre] [post H]].
      * left. now exists post.
      * right. simpl in H. injection H as -> ->. now exists pre, post.
Qed.

End PyStrFacts.

(** ** The cache key *)

Example get_cache_key_apple :
  get_cache_key "Apple" " What is Revenue? " = "financial_rag:Apple:what is revenue?".
Proof. reflexivity. Qed.

Section CacheKey.
Import PyStr PyStrFacts.

Lemma normalized_padding (pre q' post q : string) :
  lower q' = lower q -> all_space pre = true -> all_space post = true ->
  normalized (pre ++ q' ++ post) = normalized q.
Proof.
  intros Hcase Hpre Hpost. unfold normalized.
  rewrite !lower_app, Hcase.
  apply strip_padding; now rewrite all_space_lower.
Qed.

Lemma get_cache_key_company_inj (c1 c2 q : string) :
  get_cache_key c1 q = get_cache_key c2 q -> c1 = c2.
Proof.
  unfold get_cache_key. intros H.
  apply append_inv_head in H.
  rewrite <- !append_assoc in H.
  apply append_inv_tail in H.
  now apply append_inv_tail in H.
Qed.

End CacheKey.

(** C4 (counterexample): the company enters the key as it is written, so
    "APPLE" and "apple", equal up to letter case, give different keys for
    the same question. *)
Lemma C4_company_case_changes_key : ~ key_normalizes_both_components.
Proof.
  intros H.
  specialize (H "APPLE" "apple" "What is Revenue?" "What is Revenue?"
                eq_refl eq_refl).
  discriminate H.
Qed.

(** C4 (amended): the key depends on the question only through its
    lower-cased, stripped form: another letter case of the question, or white
    space put around it, gives the same key for the same company; the keys of
    ("Apple", "What is Revenue?") and ("Apple", " what is revenue? ") are
    equal; and two different companies give different keys for the same
    question text. *)
Theorem C4_cache_key_normalizes_question :
  (forall company q q' pre post : string,
      PyStr.lower q' = PyStr.lower q ->
      PyStr.all_space pre = true -> PyStr.all_space post = true ->
      get_cache_key company (pre ++ q' ++ post) = get_cache_key company q)
  /\ get_cache_key "Apple" "What is Revenue?"
     = get_cache_key "Apple" " what is revenue? "
  /\ (forall c1 c2 q : string,
         c1 <> c2 -> get_cache_key c1 q <> get_cache_key c2 q).
Proof.
  split; [|split].
  - intros company q q' pre post Hcase Hpre Hpost.
    unfold get_cache_key. do 3 f_equal.
    now apply normalized_padding.
  - reflexivity.
  - intros c1 c2 q Hne Heq. apply Hne.
    now apply get_cache_key_company_inj with q.
Qed.

(** C4 (witness): an upper-cased, padded question for Apple, and the same
    question for Apple and for Tesla. *)
Lemma C4_cache_key_normalizes_question_witness :
  get_cache_key "Apple" ("  " ++ "WHAT IS REVENUE?" ++ " ")
  = get_cache_key "Apple" "What is Revenue?"
  /\ get_cache_key "Apple" "What is Revenue?"
     <> get_cache_key "Tesla" "What is Revenue?".
Proof.
  destruct C4_cache_key_normalizes_question as [Hq [_ Hc]].
  split.
  - apply Hq; reflexivity.
  - apply Hc. discriminate.
Defined.

(** C10: the key is not injective across companies: ("a:b", "c") and
    ("a", "b:c") are pairs with different companies and the same key, and a
    query about company "a" is answered from the cache with the entry that
    was stored for company "a:b". *)
Theorem C10_cache_key_collision :
  "a:b" <> "a"
  /\ get_cache_key "a:b" "c" = get_cache_key "a" "b:c"
  /\ (let w := healthy_world (get_cache_key "a:b" "c") "answer about a:b" [] in
      let run := process_query default_config w "a" "b:c" "key-0001"
                               (initial_state 0) in
      answer <$> returned run = Some "answer about a:b"
      /\ source <$> returned run = Some "cache").
Proof.
  split; [discriminate|]. split; [reflexivity|].
  vm_compute. split; reflexivity.
Qed.

(** ** The rate limiter *)

Example second_call_after_exactly_one_window :
  (RateLimiter.check_many (RateLimiter.init 1 60) "tenant-1" [0; 60]%Q).1
  = [true; true].
Proof. reflexivity. Qed.

Example second_call_inside_the_window :
  (RateLimiter.check_many (RateLimiter.init 1 60) "tenant-1" [0; 59]%Q).1
  = [true; false].
Proof. reflexivity. Qed.

Module RateLimiterFacts.
Import RateLimiter.

Lemma gtb_true (a b : Q) : gtb a b = true <-> (b < a)%Q.
Proof.
  unfold gtb. rewrite negb_true_iff, <- not_true_iff_false, Qle_bool_iff.
  split; [apply Qnot_le_lt | apply Qlt_not_le].
Qed.

Lemma gtb_false (a b : Q) : gtb a b = false <-> (a <= b)%Q.
Proof.
  unfold gtb. rewrite negb_false_iff. apply Qle_bool_iff.
Qed.

(** A timestamp survives pruning exactly when it is strictly newer than
    [current_time - window_seconds]. *)
Lemma in_prune (self : t) (now x : Q) (l : list Q) :
  In x (prune self now l)
  <-> In x l /\ (now - inject_Z (window_seconds self) < x)%Q.
Proof.
  unfold prune. rewrite filter_In, gtb_true. reflexivity.
Qed.

Lemma prune_keeps_all (self : t) (now : Q) (l : list Q) :
  Forall (fun x => (now - inject_Z (window_seconds self) < x)%Q) l ->
  prune self now l = l.
Proof.
  unfold prune. induction 1 as [|x l Hx _ IH]; simpl; [reflexivity|].
  apply gtb_true in Hx. now rewrite Hx, IH.
Qed.

(** One call, seen from the window of its key. *)
Lemma check_rate_limit_window (self : t) (now : Q) (api_key : string) :
  let pruned := prune self now (window_of (requests self) api_key) in
  let admitted := (Z.of_nat (List.length pruned) <? max_requests self)%Z in
  let self' := (check_rate_limit self now api_key).2 in
  (check_rate_limit self now api_key).1 = admitted
  /\ window_of (requests self') api_key
     = (if admitted then pruned ++ [now] else pruned)%list
  /\ max_requests self' = max_requests self
  /\ window_seconds self' = window_seconds self.
Proof.
  unfold check_rate_limit, window_of.
  destruct (requests self !! api_key) as [l|] eqn:Hl; simpl;
    rewrite ?Hl, ?lookup_insert_eq; simpl;
    match goal with |- context [(?a <? ?b)%Z] => destruct (a <? b)%Z end;
    simpl; rewrite ?lookup_insert_eq; simpl; auto.
Qed.

Lemma check_many_app (self : t) (api_key : string) (xs ys : list Q) :
  check_many self api_key (xs ++ ys)%list
  = let '(bs, self1) := check_many self api_key xs in
    let '(cs, self2) := check_many self1 api_key ys in
    ((bs ++ cs)%list, self2).
Proof.
  revert self. induction xs as [|x xs IH]; intros self; simpl.
  - now destruct (check_many self api_key ys).
  - destruct (check_rate_limit self x api_key) as [b self1].
    rewrite IH. destruct (check_many self1 api_key xs) as [bs self2].
    now destruct (check_many self2 api_key ys).
Qed.

Section OneWindow.

Variable api_key : string.
Variable base : Q.
Variable window : Z.

Lemma window_keeps (self : t) (now : Q) (l : list Q) :
  window_seconds self = window -> in_window base window now -> Forall (in_window base window) l ->
  prune self now l = l.
Proof.
  intros Hw [_ Hnow] Hl. apply prune_keeps_all. rewrite Hw.
  eapply Forall_impl; [exact Hl|].
  intros x [Hx _]. simpl. lra.
Qed.

(** While there is room, every call in the window is admitted and
    logged. *)
Lemma admitted_while_room (times : list Q) :
  forall (self : t) (acc : list Q),
    window_seconds self = window ->
    window_of (requests self) api_key = acc ->
    Forall (in_window base window) acc -> Forall (in_window base window) times ->
    (List.length acc + List.length times <= Z.to_nat (max_requests self))%nat ->
    let run := check_many self api_key times in
    run.1 = repeat true (List.length times)
    /\ window_of (requests run.2) api_key = (acc ++ times)%list
    /\ max_requests run.2 = max_requests self
    /\ window_seconds run.2 = window.
Proof.
  induction times as [|now rest IH]; intros self acc Hw Hacc Fa Ft Hroom; simpl.
  - rewrite app_nil_r. auto.
  - apply Forall_cons_1 in Ft as [Hnow Hrest].
    pose proof (check_rate_limit_window self now api_key) as Hstep.
    simpl in Hstep. rewrite Hacc, (window_keeps self now acc Hw Hnow Fa) in Hstep.
    destruct (check_rate_limit self now api_key) as [b self1].
    simpl in Hstep, Hroom. destruct Hstep as (Hb & Hwin & Hmax & Hws).
    assert (Hlt : (Z.of_nat (List.length acc) <? max_requests self)%Z = true)
      by (apply Z.ltb_lt; lia).
    rewrite Hlt in Hb, Hwin. subst b.
    specialize (IH self1 (acc ++ [now])%list).
    destruct (check_many self1 api_key rest) as [bs self2]. simpl in *.
    destruct IH as (Hbs & Hwin2 & Hmax2 & Hws2).
    + congruence.
    + exact Hwin.
    + apply Forall_app; split; [exact Fa | now constructor].
    + exact Hrest.
    + rewrite length_app. simpl. lia.
    + rewrite Hbs, Hwin2, <- app_assoc. simpl. repeat split; congruence.
Qed.

End OneWindow.

End RateLimiterFacts.

(** C2 (counterexample): a timestamp lying exactly at
    [now - window_seconds] is not older than that instant, and it is dropped
    all the same: with a window of 60 seconds the entry of time 0 is gone at
    time 60. *)
Lemma C2_boundary_timestamp_dropped : ~ prune_drops_exactly_older.
Proof.
  intros H.
  destruct (H (RateLimiter.init 1 60) 60%Q 0%Q [0%Q]) as [Hdrop _].
  - now left.
  - assert (Hlt : (0 < 60 - inject_Z 60)%Q) by (apply Hdrop; simpl; tauto).
    vm_compute in Hlt. discriminate Hlt.
Qed.

(** C2 (amended): for any key with an empty window and any window of
    [window_seconds] seconds, the first [max_requests] calls made inside it
    are admitted and each appends its timestamp, and the next call inside it
    is denied and appends nothing; in every call the timestamps dropped
    before the length test are exactly those not newer than
    [now - window_seconds] (the instant [now - window_seconds] itself
    included), the call is admitted iff fewer than [max_requests] remain, and
    only then its own timestamp is appended. *)
Theorem C2_sliding_window_log :
  (forall (self : RateLimiter.t) (api_key : string) (firsts : list Q)
          (last base : Q),
      RateLimiter.window_of (RateLimiter.requests self) api_key = [] ->
      List.length firsts = Z.to_nat (RateLimiter.max_requests self) ->
      Forall (RateLimiter.in_window base (RateLimiter.window_seconds self))
             (firsts ++ [last])%list ->
      let run := RateLimiter.check_many self api_key (firsts ++ [last])%list in
      run.1 = (repeat true (List.length firsts) ++ [false])%list
      /\ RateLimiter.window_of (RateLimiter.requests run.2) api_key = firsts)
  /\ (forall (self : RateLimiter.t) (now : Q) (api_key : string),
        let l := RateLimiter.window_of (RateLimiter.requests self) api_key in
        let pruned := RateLimiter.prune self now l in
        let admitted :=
          (Z.of_nat (List.length pruned) <? RateLimiter.max_requests self)%Z in
        let run := RateLimiter.check_rate_limit self now api_key in
        (forall x, In x l ->
           (~ In x pruned
            <-> (x <= now - inject_Z (RateLimiter.window_seconds self))%Q))
        /\ run.1 = admitted
        /\ RateLimiter.window_of (RateLimiter.requests run.2) api_key
           = (if admitted then pruned ++ [now] else pruned)%list).
Proof.
  split.
  - intros self api_key firsts last base Hempty Hlen Hall run. subst run.
    apply Forall_app in Hall as [Hfirsts Hlast].
    apply Forall_cons_1 in Hlast as [Hlast _].
    rewrite RateLimiterFacts.check_many_app.
    pose proof (RateLimiterFacts.admitted_while_room api_key base
                  (RateLimiter.window_seconds self) firsts self []
                  eq_refl Hempty (Forall_nil_2 _) Hfirsts) as Hrun.
    simpl in Hrun.
    destruct (RateLimiter.check_many self api_key firsts) as [bs self1].
    destruct Hrun as (Hbs & Hwin & Hmax & Hws); [lia|]. simpl in *.
    pose proof (RateLimiterFacts.check_rate_limit_window self1 last api_key)
      as Hstep.
    simpl in Hstep.
    rewrite Hwin in Hstep.
    rewrite (RateLimiterFacts.window_keeps base (RateLimiter.window_seconds self)
               self1 last firsts Hws Hlast Hfirsts) in Hstep.
    destruct (RateLimiter.check_rate_limit self1 last api_key) as [b self2].
    simpl in *. destruct Hstep as (Hb & Hwin2 & _).
    assert (Hfull : (Z.of_nat (List.length firsts)
                     <? RateLimiter.max_requests self1)%Z = false)
      by (apply Z.ltb_ge; lia).
    rewrite Hfull in Hb, Hwin2. subst. auto.
  - intros self now api_key l pruned admitted run.
    destruct (RateLimiterFacts.check_rate_limit_window self now api_key)
      as (Hb & Hwin & _).
    split; [|split; assumption].
    intros x Hx. subst pruned. rewrite RateLimiterFacts.in_prune. split.
    + intros Hout. apply Qnot_lt_le. tauto.
    + intros Hle [_ Hlt]. now apply Qlt_not_le in Hlt.
Qed.

(** C2 (witness): a limit of two requests per 60 s, and calls at 100, 101
    and 159. *)
Lemma C2_sliding_window_log_witness :
  let self := RateLimiter.init 2 60 in
  (RateLimiter.check_many self "tenant-1" [100; 101; 159]%Q).1
  = [true; true; false]
  /\ RateLimiter.window_of
       (RateLimiter.requests
          (RateLimiter.check_many self "tenant-1" [100; 101; 159]%Q).2)
       "tenant-1" = [100; 101]%Q.
Proof.
  destruct C2_sliding_window_log as [Hburst _].
  apply (Hburst (RateLimiter.init 2 60) "tenant-1" [100; 101]%Q 159%Q 100%Q).
  - reflexivity.
  - reflexivity.
  - repeat constructor; simpl; lra.
Defined.

(** ** The pipeline, operation by operation *)

(** Projections of a run that has been named. *)
Ltac proj := cbn [final_state trace returned fst snd] in *.

(** Name the run a statement is about, and open the equation defining it. *)
Ltac name_run E :=
  cbv zeta;
  match goal with
  | |- context [final_state ?run] => destruct run as [[?r ?s'] ?t] eqn:E
  | |- context [trace ?run] => destruct run as [[?r ?s'] ?t] eqn:E
  end;
  proj;
  cbv [bind try_except try_finally ret raise gets modify call emit from_res] in E;
  cbn [fst snd app] in E.

(** Case analysis on what the run equation looks at next. *)
Ltac branch E :=
  match type of E with
  | context [match ?x with _ => _ end] =>
      lazymatch x with
      | context [match _ with _ => _ end] => fail
      | _ => destruct x eqn:?
      end
  end;
  cbn [fst snd app] in E.

Ltac close E := injection E as <- <- <-.

Lemma observed_app (t1 t2 : list Event) :
  observed (t1 ++ t2)%list = (observed t1 ++ observed t2)%list.
Proof. apply List.filter_app. Qed.

Section Ops.

Variable cfg : Config.
Variable w : World.

Lemma cache_get_spec (key : string) (s : State) :
  let run := cache_get w key s in
  gauge (final_state run) = gauge s
  /\ observed (trace run) = []
  /\ match run.1.1 with
     | Raise e => redis_connect w = Raise e
     | Ret None => RedisCache.redis (cache (final_state run)) = true
     | Ret (Some v) =>
         RedisCache.redis (cache (final_state run)) = true
         /\ redis_get w key = Ret (Some (Encoded v)) /\ PyStr.truthy v = true
     end.
Proof.
  unfold cache_get, cache_connect, cache_hit_inc, cache_miss_inc,
    bytes_truthy, decode.
  name_run E. repeat branch E; close E; cbn; auto; try discriminate.
Qed.

Lemma cache_set_spec (key value : string) (is_real_time : bool) (s : State) :
  RedisCache.redis (cache s) = true ->
  let run := cache_set cfg w key value is_real_time s in
  run.1.1 = Ret tt
  /\ final_state run = s
  /\ observed (trace run) = [EvRedisSetex key (ttl_for cfg is_real_time) value].
Proof.
  intros Hup. unfold cache_set. name_run E. rewrite Hup in E.
  repeat branch E; close E; cbn; auto.
  all: match goal with u : () |- _ => destruct u end; auto.
Qed.

Lemma _rate_limit_spec (s : State) :
  let run := _rate_limit w s in
  run.1.1 = Ret tt
  /\ cache (final_state run) = cache s
  /\ metrics (final_state run) = metrics s
  /\ OpenAIClient.client (openai_client (final_state run))
     = OpenAIClient.client (openai_client s)
  /\ observed (trace run) = [].
Proof.
  unfold _rate_limit, time_time. name_run E.
  repeat branch E; close E; cbn; auto.
Qed.

(** The local pacing in front of a provider call changes neither the
    outcome nor what is observed. *)
Lemma paced_call_spec {A} (ev : Event) (outcome : Res A) (s : State) :
  let run := bind (_rate_limit w)
                  (fun _ => try_except (call ev outcome) (fun e => raise e)) s in
  run.1.1 = outcome
  /\ cache (final_state run) = cache s
  /\ gauge (final_state run) = gauge s
  /\ OpenAIClient.client (openai_client (final_state run))
     = OpenAIClient.client (openai_client s)
  /\ observed (trace run) = observed [ev].
Proof.
  name_run E.
  destruct (_rate_limit_spec s) as (Hr & Hc & Hm & Hcl & Ht).
  destruct (_rate_limit w s) as [[r1 s1] t1]. proj. subst r1.
  unfold gauge. rewrite <- Hc, <- Hm, <- Hcl.
  destruct outcome; close E; rewrite ?app_nil_r, observed_app, Ht; auto.
Qed.

Lemma get_embedding_async_spec (text : string) (s : State) :
  let run := get_embedding_async w text s in
  run.1.1 = embeddings_create w text
  /\ cache (final_state run) = cache s
  /\ gauge (final_state run) = gauge s
  /\ observed (trace run) = [EvEmbeddings text].
Proof.
  destruct (paced_call_spec (EvEmbeddings text) (embeddings_create w text) s)
    as (Hr & Hc & Hg & _ & Ht).
  auto.
Qed.

Lemma vector_store_query_spec (embedding : list Q) (company : string)
      (top_k : Z) (s : State) :
  let run := vector_store_query w embedding company top_k s in
  cache (final_state run) = cache s
  /\ gauge (final_state run) = gauge s
  /\ match run.1.1 with
     | Raise e => pinecone_connect w = Raise e /\ observed (trace run) = []
     | Ret ms =>
         observed (trace run) = [EvIndexQuery embedding company top_k]
         /\ (index_query w embedding company top_k = Ret ms
             \/ ms = [] /\ exists e, index_query w embedding company top_k = Raise e)
     end.
Proof.
  unfold vector_store_query, vector_store_connect. name_run E.
  repeat branch E; close E; cbn; eauto 10.
Qed.

Lemma generate_answer_async_spec (context question : string) (s : State) :
  let run := generate_answer_async w context question s in
  cache (final_state run) = cache s
  /\ gauge (final_state run) = gauge s
  /\ match run.1.1 with
     | Raise e =>
         (openai_connect w = Raise e /\ observed (trace run) = [])
         \/ (chat_completion w context question = Raise e
             /\ observed (trace run) = [EvChatCompletion context question])
     | Ret a =>
         chat_completion w context question = Ret a
         /\ observed (trace run) = [EvChatCompletion context question]
     end.
Proof.
  unfold generate_answer_async, openai_connect_client.
  cbv zeta.
  set (paced := bind (_rate_limit w) _).
  assert (Hpaced : forall s0, _ ) by
    (intros s0; exact (paced_call_spec (EvChatCompletion context question)
                         (chat_completion w context question) s0)).
  fold paced in Hpaced. clearbody paced.
  name_run E.
  destruct (OpenAIClient.client (openai_client s)).
  - destruct (Hpaced s) as (Hr & Hc & Hg & _ & Ht).
    destruct (paced s) as [[r1 s1] t1]. proj.
    destruct r1; close E; rewrite <- Hr; cbn [app]; auto.
  - destruct (openai_connect w) as [[]|e]; cbn [fst snd app] in E;
      [|close E; cbn; auto].
    match type of E with context [paced ?s0] =>
      destruct (Hpaced s0) as (Hr & Hc & Hg & _ & Ht);
      destruct (paced s0) as [[r1 s1] t1] end.
    proj.
    destruct r1; close E. all: rewrite <- Hr; rewrite ?app_nil_r; cbn [app];
      change (observed (EvOpenAIConnect :: t1)) with (observed t1); auto.
Qed.

Lemma _record_query_metrics_spec (company question : string) (latency : Q)
      (cache_hit : bool) (api_key : string) (s : State) :
  let run := _record_query_metrics w company question latency cache_hit api_key s in
  run.1.1 = Ret tt /\ final_state run = s /\ observed (trace run) = [].
Proof.
  unfold _record_query_metrics. name_run E.
  repeat branch E; close E; cbn; auto.
  all: match goal with u : () |- _ => destruct u end; auto.
Qed.


(** Run the next operation of the equation [E], through its specification. *)
Ltac step E :=
  let H := fresh "Hop" in
  match type of E with
  | context [cache_get _ ?k ?s0] =>
      pose proof (cache_get_spec k s0) as H
  | context [get_embedding_async _ ?x ?s0] =>
      pose proof (get_embedding_async_spec x s0) as H
  | context [vector_store_query _ ?x ?c ?k ?s0] =>
      pose proof (vector_store_query_spec x c k s0) as H
  | context [generate_answer_async _ ?c ?q ?s0] =>
      pose proof (generate_answer_async_spec c q s0) as H
  | context [_record_query_metrics _ ?c ?q ?l ?b ?k ?s0] =>
      pose proof (_record_query_metrics_spec c q l b k s0) as H
  end;
  cbv zeta in H;
  match type of H with
  | context [final_state ?run] => destruct run as [[?r ?s] ?t]
  end;
  proj; cbn [fst snd app] in E.

Lemma observed_cons (ev : Event) (t : list Event) :
  observed (ev :: t) = ((if observable ev then [ev] else []) ++ observed t)%list.
Proof. unfold observed. simpl. now destruct (observable ev). Qed.

Ltac observe :=
  repeat first [rewrite observed_app | rewrite observed_cons];
  change (observed []) with (@nil Event);
  repeat match goal with H : observed _ = _ |- _ => rewrite H end;
  cbn [observable app].

(** Every way through [process_query] is one of the ways of [Served], and
    the gauge is back where it started. *)
Lemma process_query_served (company question api_key : string) (s : State) :
  let run := process_query cfg w company question api_key s in
  gauge (final_state run) = gauge s
  /\ exists r, run.1.1 = Ret r
       /\ Served cfg w company question r (observed (trace run)).
Proof.
  unfold process_query, process_query_body, increment_concurrent,
    decrement_concurrent, elapsed,
    record_query, time_time.
  name_run E.
  step E. destruct Hop as (Hg1 & Ht1 & Hr1).
  destruct r0 as [cached|e]; cbn [fst snd app] in E.
  2:{ close E. split; [unfold gauge in *; cbn in *; lia|].
      eexists; split; [reflexivity|]. observe. now apply ServedCacheDown. }
  destruct (opt_truthy cached) eqn:Hhit.
  - step E. destruct Hop as (-> & -> & Ht2). cbn [fst snd app] in E. close E.
    split; [unfold gauge in *; cbn in *; lia|].
    eexists; split; [reflexivity|]. observe.
    destruct cached as [v|]; [|discriminate]. destruct Hr1 as (_ & Hv & Hv').
    now apply ServedHit.
  - assert (Hup : RedisCache.redis (cache s0) = true)
      by (destruct cached; [apply Hr1 | exact Hr1]).
    clear Hr1 Hhit.
    step E. destruct Hop as (Hr2 & Hc2 & Hg2 & Ht2).
    destruct r0 as [emb|e]; cbn [fst snd app] in E; symmetry in Hr2.
    2:{ close E. split; [unfold gauge in *; cbn in *; lia|].
        eexists; split; [reflexivity|]. observe. now apply ServedEmbedFailed. }
    step E. destruct Hop as (Hc3 & Hg3 & Hr3).
    destruct r0 as [ms|e]; cbn [fst snd app] in E.
    2:{ destruct Hr3 as [Hdown Ht3]. close E.
        split; [unfold gauge in *; cbn in *; lia|].
        eexists; split; [reflexivity|]. observe.
        now apply ServedIndexDown with emb. }
    destruct Hr3 as [Ht3 Hq].
    destruct ms as [|m ms]; cbn [fst snd app] in E.
    { close E. split; [unfold gauge in *; cbn in *; lia|].
      eexists; split; [reflexivity|]. observe.
      apply ServedNoMatches; [assumption|]. tauto. }
    destruct Hq as [Hq | [Hq _]]; [|discriminate].
    step E. destruct Hop as (Hc4 & Hg4 & Hr4).
    destruct r0 as [a|e]; cbn [fst snd app] in E.
    2:{ close E. split; [unfold gauge in *; cbn in *; lia|].
        eexists; split; [reflexivity|].
        destruct Hr4 as [[Hdown Ht4] | [Hfail Ht4]]; observe.
        - now apply ServedOpenAIDown with (m :: ms).
        - now apply ServedGenerationFailed. }
    destruct Hr4 as [Hr4 Ht4].
    match type of E with
    | context [cache_set _ _ ?k ?v ?b ?s5] =>
        destruct (cache_set_spec k v b s5) as (Hr5 & Hs5 & Ht5);
        [congruence|];
        destruct (cache_set cfg w k v b s5) as [[r5 s6] t5]
    end.
    proj. subst r5 s6. cbn [fst snd app] in E.
    step E. destruct Hop as (-> & -> & Ht6). cbn [fst snd app] in E. close E.
    split; [unfold gauge in *; cbn in *; lia|].
    eexists; split; [reflexivity|]. observe.
    now apply ServedGenerated.
Qed.

End Ops.

(** ** The pipeline as a whole *)

Lemma filter_observed (p : Event -> bool) (t : list Event) :
  (forall ev, p ev = true -> observable ev = true) ->
  List.filter p t = List.filter p (observed t).
Proof.
  intros Hp. unfold observed. induction t as [|ev t IH]; simpl; [reflexivity|].
  destruct (p ev) eqn:Hev.
  - rewrite (Hp ev Hev). simpl. now rewrite Hev, IH.
  - destruct (observable ev); simpl; now rewrite ?Hev, IH.
Qed.

Lemma in_observed (ev : Event) (t : list Event) :
  observable ev = true -> In ev t -> In ev (observed t).
Proof. intros Hev Hin. apply filter_In. now split. Qed.

(** What a run returns, read off [Served]. *)
Lemma process_query_returns (cfg : Config) (w : World)
      (company question api_key : string) (s : State) :
  let run := process_query cfg w company question api_key s in
  exists r, returned run = Some r
            /\ Served cfg w company question r (observed (trace run)).
Proof.
  destruct (process_query_served cfg w company question api_key s)
    as (_ & r & Hr & Hs).
  exists r. unfold returned. now rewrite Hr.
Qed.

(** The gauge operations bracket everything else a run does. *)
Lemma gauge_bracket {A} (w : World) (inner : Q -> M A) (s : State) :
  let run := (do start_time <- time_time w ;;
              increment_concurrent ;;;
              try_finally (inner start_time) decrement_concurrent) s in
  exists body, trace run = (EvGaugeInc :: body ++ [EvGaugeDec])%list.
Proof.
  unfold increment_concurrent, decrement_concurrent, time_time.
  name_run E.
  match type of E with context [inner ?x ?s0] =>
    destruct (inner x s0) as [[r1 s1] t1] end.
  cbn [fst snd app] in E. close E.
  now exists t1.
Qed.

Lemma last_bracket (ev : Event) (body : list Event) :
  last (ev :: body ++ [EvGaugeDec])%list = Some EvGaugeDec.
Proof.
  change (ev :: body ++ [EvGaugeDec])%list with ((ev :: body) ++ [EvGaugeDec])%list.
  apply last_snoc.
Qed.

(** A run of [process_query] is the run of its [try] block between the two
    gauge operations; the clock is read first. *)
Lemma process_query_around_body (cfg : Config) (w : World)
      (company question api_key : string) (s : State) :
  let entered := increment_concurrent (final_state (time_time w s)) in
  let body := process_query_body cfg w company question api_key
                (clock w (ticks s)) (final_state entered) in
  process_query cfg w company question api_key s
  = (body.1.1, final_state (decrement_concurrent (final_state body)),
     (EvGaugeInc :: trace body ++ [EvGaugeDec])%list).
Proof.
  unfold process_query, increment_concurrent, decrement_concurrent, time_time.
  cbv [bind try_finally emit call modify final_state trace].
  cbn [fst snd app].
  match goal with |- context [process_query_body _ _ _ _ _ ?x ?s0] =>
    destruct (process_query_body cfg w company question api_key x s0)
      as [[r1 s1] t1] end.
  cbn [fst snd app]. reflexivity.
Qed.

(** C8: every execution of [process_query] raises the gauge by one as the
    first thing it does and lowers it by one as the last thing it does,
    whichever way it leaves.  The [try] block starts with the gauge one above
    where the query found it and touches it no more, so the gauge reads one
    higher for as long as the query is being answered; the decrement then
    brings it back.  Each run makes one increment and one decrement, so the
    gauge ends where it started, after one query and after any burst of
    queries run to completion. *)
Theorem C8_gauge_balanced :
  (forall (cfg : Config) (w : World) (company question api_key : string)
          (s : State),
      let run := process_query cfg w company question api_key s in
      let entered := increment_concurrent (final_state (time_time w s)) in
      let body := process_query_body cfg w company question api_key
                    (clock w (ticks s)) (final_state entered) in
      gauge (final_state entered) = (gauge s + 1)%Z
      /\ run.1.1 = body.1.1
      /\ trace run = (EvGaugeInc :: trace body ++ [EvGaugeDec])%list
      /\ gauge (final_state body) = (gauge s + 1)%Z
      /\ List.filter is_gauge_inc (trace body) = []
      /\ List.filter is_gauge_dec (trace body) = []
      /\ final_state run = final_state (decrement_concurrent (final_state body))
      /\ gauge (final_state run) = (gauge (final_state body) - 1)%Z
      /\ gauge (final_state run) = gauge s
      /\ head (trace run) = Some EvGaugeInc
      /\ last (trace run) = Some EvGaugeDec
      /\ List.filter is_gauge_inc (trace run) = [EvGaugeInc]
      /\ List.filter is_gauge_dec (trace run) = [EvGaugeDec])
  /\ (forall (cfg : Config) (qs : list Query) (s : State),
        let run := run_queries cfg qs s in
        gauge (final_state run) = gauge s
        /\ List.length (List.filter is_gauge_inc (trace run)) = List.length qs
        /\ List.length (List.filter is_gauge_dec (trace run)) = List.length qs).
Proof.
  assert (Hone : forall cfg w company question api_key s,
    let run := process_query cfg w company question api_key s in
    gauge (final_state run) = gauge s
    /\ head (trace run) = Some EvGaugeInc
    /\ last (trace run) = Some EvGaugeDec
    /\ List.filter is_gauge_inc (trace run) = [EvGaugeInc]
    /\ List.filter is_gauge_dec (trace run) = [EvGaugeDec]).
  { intros cfg w company question api_key s run.
    destruct (process_query_served cfg w company question api_key s)
      as (Hg & r & _ & Hs).
    assert (Hbody : exists body,
               trace run = (EvGaugeInc :: body ++ [EvGaugeDec])%list)
      by (subst run; unfold process_query; apply gauge_bracket).
    destruct Hbody as [body Hbody]. fold run in Hg, Hs.
    split; [exact Hg|]. rewrite Hbody at 1 2.
    split; [reflexivity|]. split; [apply last_bracket|].
    rewrite (filter_observed is_gauge_inc), (filter_observed is_gauge_dec)
      by (intros []; simpl; congruence).
    inversion Hs; split; reflexivity. }
  split.
  - intros cfg w company question api_key s run entered body.
    destruct (Hone cfg w company question api_key s)
      as (Hg & Hhead & Hlast & Hinc & Hdec).
    fold run in Hg, Hhead, Hlast, Hinc, Hdec.
    pose proof (process_query_around_body cfg w company question api_key s)
      as Hrun.
    cbv zeta in Hrun. fold entered in Hrun. fold body in Hrun. fold run in Hrun.
    assert (Hres : run.1.1 = body.1.1) by now rewrite Hrun.
    assert (Hfin : final_state run
                   = final_state (decrement_concurrent (final_state body)))
      by now rewrite Hrun.
    assert (Htr : trace run = (EvGaugeInc :: trace body ++ [EvGaugeDec])%list)
      by now rewrite Hrun.
    assert (Hup : gauge (final_state entered) = (gauge s + 1)%Z)
      by reflexivity.
    assert (Hdown : gauge (final_state run)
                    = (gauge (final_state body) - 1)%Z)
      by (rewrite Hfin; reflexivity).
    rewrite Htr in Hinc, Hdec.
    cbn [List.filter is_gauge_inc is_gauge_dec] in Hinc, Hdec.
    rewrite List.filter_app in Hinc, Hdec.
    cbn [List.filter is_gauge_inc is_gauge_dec] in Hinc, Hdec.
    rewrite app_nil_r in Hinc. injection Hinc as Hinc.
    apply (app_inv_tail [EvGaugeDec] _ []) in Hdec.
    repeat split; try assumption; try lia.
    + rewrite Htr. cbn [List.filter is_gauge_inc]. rewrite List.filter_app, Hinc.
      reflexivity.
    + rewrite Htr. cbn [List.filter is_gauge_dec]. rewrite List.filter_app, Hdec.
      reflexivity.
  - intros cfg qs. induction qs as [|q qs IH]; intros s; [now cbn|].
    cbn [run_queries].
    destruct (Hone cfg (q_world q) (q_company q) (q_question q) (q_api_key q) s)
      as (Hg & _ & _ & Hinc & Hdec).
    destruct (process_query cfg _ _ _ _ s) as [[r s1] t1].
    specialize (IH s1). destruct (run_queries cfg qs s1) as [[rs s2] t2].
    unfold final_state, trace in *. cbn [fst snd] in *.
    destruct IH as (IHg & IHinc & IHdec).
    rewrite !List.filter_app, !length_app, Hinc, Hdec, IHinc, IHdec.
    cbn. split; [congruence | auto].
Qed.

(** Membership of a call in a run, moved to the observable calls. *)
Ltac to_observed H :=
  apply in_observed in H; [|reflexivity].

(** Decide membership in a list that is written out. *)
Ltac in_cases H :=
  cbn [In] in H;
  repeat match type of H with
         | _ \/ _ => destruct H as [H|H]
         | False => destruct H
         end;
  try discriminate H.

(** C6: when the embedding call or the generation call of a query raises,
    [process_query] returns (it raises nothing) the error dictionary: the
    fixed apology as the answer, [source = "error"] and [str(e)] as the
    error detail; the run writes nothing to the cache, and makes the
    embedding call once and the generation call at most once. *)
Theorem C6_provider_error_surfaced
        (cfg : Config) (w : World) (company question api_key : string)
        (s : State) (e : Exception) :
  let run := process_query cfg w company question api_key s in
  provider_call_raised w (trace run) e ->
  (exists lat, returned run = Some (error_result e lat))
  /\ List.filter is_cache_write (trace run) = []
  /\ List.filter is_embedding (trace run) = [EvEmbeddings question]
  /\ (List.length (List.filter is_generation (trace run)) <= 1)%nat.
Proof.
  intros run Hraised.
  destruct (process_query_returns cfg w company question api_key s)
    as (r & Hr & Hs).
  fold run in Hr, Hs. rewrite Hr.
  rewrite (filter_observed is_cache_write), (filter_observed is_embedding),
    (filter_observed is_generation) by (intros []; simpl; congruence).
  destruct Hraised as [(text & Hin & He) | (ctx & q & Hin & He)];
    to_observed Hin;
    inversion Hs; subst;
    match goal with H : _ = observed (trace run) |- _ => rewrite <- H in * end;
    in_cases Hin;
    try (injection Hin as <-); try (injection Hin as <- <-);
    try congruence.
  - replace e0 with e by congruence. cbn. eauto 10.
  - replace e0 with e by congruence. cbn. eauto 10.
Qed.

(** C6 (witness): a cache miss followed by an embedding call that times
    out. *)
Lemma C6_provider_error_surfaced_witness :
  let w := embeddings_failing (healthy_world "" "" []) in
  let run := process_query default_config w "Apple" "What is revenue?"
                           "key-0001" (initial_state 0) in
  (exists lat, returned run = Some (error_result (Exc "Read timed out") lat))
  /\ List.filter is_cache_write (trace run) = []
  /\ List.filter is_embedding (trace run) = [EvEmbeddings "What is revenue?"]
  /\ (List.length (List.filter is_generation (trace run)) <= 1)%nat.
Proof.
  apply (C6_provider_error_surfaced default_config
           (embeddings_failing (healthy_world "" "" []))
           "Apple" "What is revenue?" "key-0001" (initial_state 0)
           (Exc "Read timed out")).
  left. exists "What is revenue?". split; [|reflexivity].
  vm_compute. tauto.
Defined.

(** C3 (counterexample): the index returns no match for the query, and the
    dictionary that comes back carries [source = "generated"]. *)
Lemma C3_empty_search_source_is_generated : ~ empty_search_has_own_source.
Proof.
  intros H.
  destruct (H default_config (healthy_world "" "" []) "Apple"
              "What is revenue?" "key-0001" (initial_state 0))
    as (r & Hr & Hgen & _).
  - exists [(1 # 2)%Q; (1 # 3)%Q], 10%Z. split; [|now left].
    vm_compute. tauto.
  - vm_compute in Hr. injection Hr as <-. now apply Hgen.
Qed.

(** C3 (amended): when vector search comes back with no match,
    [process_query] returns the fixed insufficient-information answer in a
    dictionary whose source is "generated" (the code has the sources cache,
    generated and error, and no fourth one); no generation call is made and
    nothing is written to the cache. *)
Theorem C3_empty_search_answer
        (cfg : Config) (w : World) (company question api_key : string)
        (s : State) :
  let run := process_query cfg w company question api_key s in
  search_came_back_empty w company (trace run) ->
  exists r,
    returned run = Some r
    /\ answer r = insufficient_answer company
    /\ source r = "generated"
    /\ error r = None
    /\ List.filter is_cache_write (trace run) = []
    /\ List.filter is_generation (trace run) = [].
Proof.
  intros run (emb & top_k & Hin & Hempty).
  destruct (process_query_returns cfg w company question api_key s)
    as (r & Hr & Hs).
  fold run in Hr, Hs. exists r. split; [exact Hr|].
  rewrite (filter_observed is_cache_write), (filter_observed is_generation)
    by (intros []; simpl; congruence).
  to_observed Hin.
  inversion Hs; subst;
    match goal with H : _ = observed (trace run) |- _ => rewrite <- H in * end;
    in_cases Hin; injection Hin as <- <-.
  - cbn. auto.
  - destruct Hempty as [Hq | [e' Hq]]; congruence.
  - destruct Hempty as [Hq | [e' Hq]]; congruence.
  - destruct Hempty as [Hq | [e' Hq]]; congruence.
Qed.

(** C3 (witness): a cache miss for which the index returns no match. *)
Lemma C3_empty_search_answer_witness :
  let run := process_query default_config (healthy_world "" "" []) "Apple"
                           "What is revenue?" "key-0001" (initial_state 0) in
  exists r,
    returned run = Some r
    /\ answer r = insufficient_answer "Apple"
    /\ source r = "generated"
    /\ error r = None
    /\ List.filter is_cache_write (trace run) = []
    /\ List.filter is_generation (trace run) = [].
Proof.
  apply (C3_empty_search_answer default_config (healthy_world "" "" [])
           "Apple" "What is revenue?" "key-0001" (initial_state 0)).
  exists [(1 # 2)%Q; (1 # 3)%Q], 10%Z. split; [|now left].
  vm_compute. tauto.
Defined.

Example context_keeps_matches_at_the_floor :
  _build_context [apple_match (65 # 100); apple_match (7 # 10)]
  = "Apple 10-K (2023-09-30):" ++ nl ++ "Net sales were 383 billion.".
Proof. reflexivity. Qed.

Lemma context_parts_below (ms : list Match) :
  Forall (fun m => below_floor m = true) ms -> context_parts ms = [].
Proof.
  induction 1 as [|m ms Hm _ IH]; simpl; [reflexivity|]. now rewrite Hm.
Qed.

(** Matches that are all under the floor leave an empty context, and the
    run goes on to the generation call with it. *)
Lemma low_scores_reach_generation
      (cfg : Config) (w : World) (company question api_key : string)
      (s : State) (emb : list Q) (top_k : Z) (ms : list Match) :
  let run := process_query cfg w company question api_key s in
  In (EvIndexQuery emb company top_k) (trace run) ->
  index_query w emb company top_k = Ret ms -> ms <> [] ->
  Forall (fun m => below_floor m = true) ms ->
  _build_context ms = ""
  /\ (In (EvChatCompletion "" question) (trace run)
      \/ exists e, openai_connect w = Raise e).
Proof.
  intros run Hin Hq Hne Hlow.
  assert (Hctx : _build_context ms = "")
    by (unfold _build_context; now rewrite context_parts_below).
  split; [exact Hctx|].
  destruct (process_query_returns cfg w company question api_key s)
    as (r & Hr & Hs).
  fold run in Hr, Hs.
  assert (Hobs : forall ev, In ev (observed (trace run)) -> In ev (trace run))
    by (intros ev Hev; now apply filter_In in Hev).
  to_observed Hin.
  inversion Hs; subst;
    match goal with H : _ = observed (trace run) |- _ => rewrite <- H in * end;
    in_cases Hin; injection Hin as <- <-;
    try match goal with
        | Hd : _ \/ (exists _, _) |- _ => destruct Hd as [? | [? ?]]; congruence
        end.
  - right. eauto.
  - left. apply Hobs. replace ms0 with ms in * by congruence.
    rewrite Hctx. cbn. tauto.
  - left. apply Hobs. replace ms0 with ms in * by congruence.
    rewrite Hctx. cbn. tauto.
Qed.

(** C1 (the code at the failing input): the only match has score 0.65;
    the run still calls the model, with an empty context, returns the
    model's text as a generated answer and writes it to the cache. *)
Theorem C1_low_scores_still_generate :
  let w := healthy_world "" "" [apple_match (65 # 100)] in
  let run := process_query default_config w "Apple" "What is revenue?"
                           "key-0001" (initial_state 0) in
  below_floor (apple_match (65 # 100)) = true
  /\ answer <$> returned run = Some "Revenue grew."
  /\ source <$> returned run = Some "generated"
  /\ List.filter is_generation (trace run)
     = [EvChatCompletion "" "What is revenue?"]
  /\ List.filter is_cache_write (trace run)
     = [EvRedisSetex "financial_rag:Apple:what is revenue?" 86400
                     "Revenue grew."].
Proof. vm_compute. repeat split; reflexivity. Qed.

(** C5 (the code at the failing input): with no pool open yet and Redis
    unreachable, the lazy connect inside [cache.get] raises and the query
    comes back as an error without any provider call, whereas the same
    query on a plain miss is answered; once the pool is open, failing [get]
    and [setex] calls do go unnoticed. *)
Theorem C5_unreachable_cache_fails_query :
  let w := healthy_world "" "" [apple_match (9 # 10)] in
  let miss := process_query default_config w "Apple" "What is revenue?"
                            "key-0001" (initial_state 0) in
  let down := process_query default_config (redis_unreachable w) "Apple"
                            "What is revenue?" "key-0001" (initial_state 0) in
  let down_open := process_query default_config (redis_unreachable w) "Apple"
                            "What is revenue?" "key-0001" (started_state 0) in
  source <$> returned miss = Some "generated"
  /\ source <$> returned down = Some "error"
  /\ error <$> returned down = Some (Some "Connection refused")
  /\ List.filter is_embedding (trace down) = []
  /\ source <$> returned down_open = Some "generated"
  /\ answer <$> returned down_open = answer <$> returned miss.
Proof. vm_compute. repeat split; reflexivity. Qed.

(** ** Freshness and the TTL *)

Example current_is_real_time :
  _is_real_time_query "What is the Current revenue?" = true.
Proof. reflexivity. Qed.

Example fiscal_2020_is_historical :
  _is_real_time_query "What was the revenue in fiscal 2020?" = false.
Proof. reflexivity. Qed.

Lemma lower_app_inv (s a b : string) :
  PyStr.lower s = a ++ b ->
  exists x y, s = x ++ y /\ PyStr.lower x = a /\ PyStr.lower y = b.
Proof.
  revert s. induction a as [|c a IH]; intros s H.
  - now exists "", s.
  - destruct s as [|d s]; [discriminate|].
    change (String (PyStr.lower_char d) (PyStr.lower s) = String c (a ++ b)) in H.
    injection H as Hc Hs.
    destruct (IH s Hs) as (x & y & -> & Hx & Hy).
    exists (String d x), y. repeat split; [|exact Hy].
    change (String (PyStr.lower_char d) (PyStr.lower x) = String c a).
    now rewrite Hc, Hx.
Qed.

(** The classifier answers [True] exactly when some indicator occurs in the
    question, in whatever letter case. *)
Lemma _is_real_time_query_spec (question : string) :
  _is_real_time_query question = true
  <-> exists indicator pre occurrence post,
        In indicator real_time_indicators
        /\ question = pre ++ occurrence ++ post
        /\ PyStr.lower occurrence = indicator.
Proof.
  unfold _is_real_time_query. rewrite existsb_exists. split.
  - intros (indicator & Hin & Hocc).
    apply PyStrFacts.contains_spec in Hocc as (a & b & Hocc).
    apply lower_app_inv in Hocc as (pre & rest & -> & _ & Hrest).
    apply lower_app_inv in Hrest as (occurrence & post & -> & Hocc & _).
    now exists indicator, pre, occurrence, post.
  - intros (indicator & pre & occurrence & post & Hin & -> & Hocc).
    exists indicator. split; [exact Hin|].
    apply PyStrFacts.contains_spec.
    exists (PyStr.lower pre), (PyStr.lower post).
    now rewrite !PyStrFacts.lower_app, Hocc.
Qed.

(** C7: a question is classified real-time exactly when one of the
    temporal markers ("current", "latest", "today", "this quarter" among
    them) occurs in it as a substring, in any letter case, and historical
    otherwise; the answer generated for it is then written to the cache
    once, with [CACHE_TTL_REALTIME] for a real-time question and
    [CACHE_TTL_HISTORICAL] for a historical one, the former being the shorter
    of the two by default. *)
Theorem C7_freshness_selects_ttl :
  (forall question : string,
      _is_real_time_query question = true
      <-> exists indicator pre occurrence post,
            In indicator real_time_indicators
            /\ question = pre ++ occurrence ++ post
            /\ PyStr.lower occurrence = indicator)
  /\ (In "current" real_time_indicators /\ In "latest" real_time_indicators
      /\ In "today" real_time_indicators
      /\ In "this quarter" real_time_indicators)
  /\ (forall (cfg : Config) (w : World) (company question api_key : string)
             (s : State) (context q a : string),
        let run := process_query cfg w company question api_key s in
        In (EvChatCompletion context q) (trace run) ->
        chat_completion w context q = Ret a ->
        List.filter is_cache_write (trace run)
        = [EvRedisSetex (get_cache_key company question)
                        (if _is_real_time_query question
                         then CACHE_TTL_REALTIME cfg
                         else CACHE_TTL_HISTORICAL cfg) a])
  /\ (CACHE_TTL_REALTIME default_config < CACHE_TTL_HISTORICAL default_config)%Z.
Proof.
  split; [exact _is_real_time_query_spec|].
  split; [cbn; tauto|].
  split; [|reflexivity].
  intros cfg w company question api_key s context q a run Hin Hchat.
  destruct (process_query_returns cfg w company question api_key s)
    as (r & Hr & Hs).
  fold run in Hr, Hs.
  rewrite (filter_observed is_cache_write) by (intros []; simpl; congruence).
  to_observed Hin.
  inversion Hs; subst;
    match goal with H : _ = observed (trace run) |- _ => rewrite <- H in * end;
    in_cases Hin; injection Hin as <- <-.
  - congruence.
  - replace a0 with a by congruence. reflexivity.
Qed.

(** C7 (witness): a question with CURRENT in capitals, answered from one
    match above the floor and cached for 3600 s. *)
Lemma C7_freshness_selects_ttl_witness :
  _is_real_time_query "What is the CURRENT revenue?" = true
  /\ (let w := healthy_world "" "" [apple_match (9 # 10)] in
      let run := process_query default_config w "Apple"
                   "What is the CURRENT revenue?" "key-0001" (initial_state 0) in
      List.filter is_cache_write (trace run)
      = [EvRedisSetex "financial_rag:Apple:what is the current revenue?" 3600
                      "Revenue grew."]).
Proof.
  destruct C7_freshness_selects_ttl as (Hclass & _ & Hwrite & _).
  split.
  - apply Hclass. exists "current", "What is the ", "CURRENT", " revenue?".
    repeat split. cbn. tauto.
  - apply (Hwrite default_config (healthy_world "" "" [apple_match (9 # 10)])
             "Apple" "What is the CURRENT revenue?" "key-0001" (initial_state 0)
             (_build_context [apple_match (9 # 10)])
             "What is the CURRENT revenue?" "Revenue grew.").
    + vm_compute. tauto.
    + reflexivity.
Defined.

(** ** The metrics snapshot *)

(** C9 (the code at the failing input): one query of latency 2 s has been
    recorded and the service has been up for 10 s; the snapshot's
    [average_latency] is 1/10, the number of queries per second of uptime,
    and not the mean recorded latency, which is 2. *)
Theorem C9_average_latency_is_throughput :
  let s := mkState (RedisCache.mk true 0 1)
                   (MetricsManager.record_query (MetricsManager.init 0)
                                                "Apple" 2 false)
                   OpenAIClient.init PineconeManager.init 10 in
  let run := get_metrics (healthy_world "" "" []) s in
  exists snap,
    returned run = Some snap
    /\ query_count snap = 1%Z
    /\ (mean_recorded_latency (metrics s) == 2)%Q
    /\ (average_latency snap == 1 # 10)%Q
    /\ ~ (average_latency snap == mean_recorded_latency (metrics s))%Q.
Proof.
  eexists. split; [vm_compute; reflexivity|].
  split; [reflexivity|].
  split; [vm_compute; reflexivity|].
  split; [vm_compute; reflexivity|].
  vm_compute. discriminate.
Qed.

(** ** The rate limiter: tenants, bounds and the status query *)

Module RateLimiterMore.
Import RateLimiter RateLimiterFacts.

Lemma prune_ext (a b : t) (now : Q) (l : list Q) :
  window_seconds a = window_seconds b -> prune a now l = prune b now l.
Proof. unfold prune. now intros ->. Qed.

Lemma check_rate_limit_same (api_key : string) (now : Q) (a b : t) :
  same_for api_key a b ->
  (check_rate_limit a now api_key).1 = (check_rate_limit b now api_key).1
  /\ same_for api_key (check_rate_limit a now api_key).2
                      (check_rate_limit b now api_key).2.
Proof.
  intros (Hm & Hw & Hl).
  destruct (check_rate_limit_window a now api_key) as (Ha1 & Ha2 & Ha3 & Ha4).
  destruct (check_rate_limit_window b now api_key) as (Hb1 & Hb2 & Hb3 & Hb4).
  rewrite Ha1, Hb1. unfold same_for.
  rewrite Ha2, Hb2, Ha3, Hb3, Ha4, Hb4, Hl, Hm, (prune_ext a b) by exact Hw.
  auto.
Qed.

Lemma check_rate_limit_other (api_key other : string) (now : Q) (self : t) :
  api_key <> other ->
  requests (check_rate_limit self now api_key).2 !! other = requests self !! other.
Proof.
  intros Hne. unfold check_rate_limit.
  destruct (requests self !! api_key) eqn:Hl;
    match goal with |- context [(?a <? ?b)%Z] => destruct (a <? b)%Z end;
    cbn; now rewrite ?lookup_insert_ne by exact Hne.
Qed.

Lemma check_rate_limit_other_same (api_key other : string) (now : Q) (self : t) :
  api_key <> other -> same_for other self (check_rate_limit self now api_key).2.
Proof.
  intros Hne.
  destruct (check_rate_limit_window self now api_key) as (_ & _ & Hm & Hw).
  unfold same_for, window_of.
  now rewrite Hm, Hw, check_rate_limit_other.
Qed.


Lemma check_calls_project (api_key : string) (calls : list (string * Q)) :
  forall a b : t,
    same_for api_key a b ->
    decisions_for api_key calls (check_calls a calls).1
    = (check_many b api_key (times_for api_key calls)).1
    /\ same_for api_key (check_calls a calls).2
                        (check_many b api_key (times_for api_key calls)).2.
Proof.
  induction calls as [|[k now] calls IH]; intros a b Hab; [now cbn|].
  cbn [check_calls times_for List.filter map fst snd decisions_for].
  destruct (String.eqb_spec k api_key) as [->|Hne].
  - destruct (check_rate_limit_same api_key now a b Hab) as [Hd Hs].
    cbn [map snd check_many].
    destruct (check_rate_limit a now api_key) as [d a1].
    destruct (check_rate_limit b now api_key) as [d' b1]. cbn in Hd, Hs. subst d'.
    specialize (IH a1 b1 Hs). fold (times_for api_key calls).
    destruct (check_calls a1 calls) as [ds a2].
    destruct (check_many b1 api_key (times_for api_key calls)) as [ds' b2].
    cbn in *. destruct IH as [-> IH]. auto.
  - pose proof (check_rate_limit_other_same k api_key now a Hne) as Hs.
    destruct (check_rate_limit a now k) as [d a1]. cbn in Hs.
    assert (Hab' : same_for api_key a1 b).
    { destruct Hab as (? & ? & ?), Hs as (? & ? & ?). unfold same_for.
      repeat split; congruence. }
    specialize (IH a1 b Hab'). fold (times_for api_key calls).
    destruct (check_calls a1 calls) as [ds a2]. cbn in *.
    exact IH.
Qed.

(** X1: the answers a tenant gets, and the window it is left with, are
    those it would get if its calls were the only ones made: calls for other
    keys, however interleaved, change nothing for it. *)
Theorem tenants_do_not_interfere (self : t) (calls : list (string * Q))
        (api_key : string) :
  let mixed := check_calls self calls in
  let alone := check_many self api_key (times_for api_key calls) in
  decisions_for api_key calls mixed.1 = alone.1
  /\ window_of (requests mixed.2) api_key = window_of (requests alone.2) api_key.
Proof.
  destruct (check_calls_project api_key calls self self) as [Hd (_ & _ & Hw)];
    [now unfold same_for|].
  auto.
Qed.

Lemma prune_length (self : t) (now : Q) (l : list Q) :
  (List.length (prune self now l) <= List.length l)%nat.
Proof. apply List.filter_length_le. Qed.

Lemma check_rate_limit_bounded (self : t) (now : Q) (api_key : string) :
  bounded self -> bounded (check_rate_limit self now api_key).2.
Proof.
  intros Hb other.
  destruct (check_rate_limit_window self now api_key) as (_ & Hwin & Hmax & _).
  cbv zeta in Hwin. rewrite Hmax.
  destruct (decide (api_key = other)) as [<-|Hne].
  - rewrite Hwin. pose proof (prune_length self now
      (window_of (requests self) api_key)) as Hlen.
    specialize (Hb api_key).
    destruct (Z.ltb_spec (Z.of_nat (List.length (prune self now
      (window_of (requests self) api_key)))) (max_requests self));
      rewrite ?length_app; cbn; lia.
  - unfold window_of. rewrite check_rate_limit_other by exact Hne. apply Hb.
Qed.

(** X2: if no window is longer than [max_requests], none is after any
    series of calls for any keys at any times; the limit itself does not
    move. *)
Theorem windows_never_exceed_limit (self : t) (calls : list (string * Q))
        (api_key : string) :
  bounded self ->
  (Z.of_nat (List.length
     (window_of (requests (check_calls self calls).2) api_key))
   <= max_requests self)%Z
  /\ max_requests (check_calls self calls).2 = max_requests self.
Proof.
  revert self. induction calls as [|[k now] calls IH]; intros self Hb.
  - split; [apply Hb | reflexivity].
  - cbn [check_calls].
    pose proof (check_rate_limit_bounded self now k Hb) as Hb1.
    destruct (check_rate_limit_window self now k) as (_ & _ & Hmax & _).
    destruct (check_rate_limit self now k) as [d self1]. cbn in Hb1, Hmax.
    specialize (IH self1 Hb1).
    destruct (check_calls self1 calls) as [ds self2]. cbn in *.
    rewrite <- Hmax. exact IH.
Qed.


Lemma prune_drops_all (self : t) (now : Q) (l : list Q) :
  Forall (fun x => (x <= now - inject_Z (window_seconds self))%Q) l ->
  prune self now l = [].
Proof.
  unfold prune. induction 1 as [|x l Hx _ IH]; simpl; [reflexivity|].
  apply gtb_false in Hx. now rewrite Hx.
Qed.

(** X3: when every timestamp of a key is at least [window_seconds] old and
    the limit is positive, the next call for it is admitted and its window
    holds that call alone. *)
Theorem window_resets_after_expiry (self : t) (now : Q) (api_key : string) :
  (0 < max_requests self)%Z ->
  Forall (fun x => (x <= now - inject_Z (window_seconds self))%Q)
         (window_of (requests self) api_key) ->
  (check_rate_limit self now api_key).1 = true
  /\ window_of (requests (check_rate_limit self now api_key).2) api_key = [now].
Proof.
  intros Hmax Hold.
  destruct (check_rate_limit_window self now api_key) as (Hd & Hwin & _).
  cbv zeta in Hd, Hwin. rewrite Hd, Hwin, (prune_drops_all _ _ _ Hold).
  apply Z.ltb_lt in Hmax.
  change (Z.of_nat (List.length (@nil Q))) with 0%Z. now rewrite Hmax.
Qed.

(** X4: [get_remaining_requests] reports a positive [remaining] exactly
    when a call of [check_rate_limit] for that key at the same instant is
    admitted, for known and unknown keys alike. *)
Theorem remaining_predicts_admission (self : t) (now : Q) (api_key : string) :
  (0 < remaining (get_remaining_requests self now api_key).1)%Z
  <-> (check_rate_limit self now api_key).1 = true.
Proof.
  destruct (check_rate_limit_window self now api_key) as (Hd & _).
  cbv zeta in Hd. rewrite Hd, Z.ltb_lt.
  unfold get_remaining_requests, window_of.
  destruct (requests self !! api_key) as [l|]; unfold prune; cbn; lia.
Qed.

Lemma newer_newer (w now now' : Q) (l : list Q) :
  (now <= now')%Q ->
  List.filter (fun x => gtb x (now' - w)) (List.filter (fun x => gtb x (now - w)) l)
  = List.filter (fun x => gtb x (now' - w)) l.
Proof.
  intros Hle. induction l as [|x l IH]; simpl; [reflexivity|].
  destruct (gtb x (now' - w)) eqn:Hnew.
  - assert (Hx : gtb x (now - w) = true)
      by (apply gtb_true; apply gtb_true in Hnew; lra).
    rewrite Hx. simpl. now rewrite Hnew, IH.
  - destruct (gtb x (now - w)); simpl; now rewrite ?Hnew, IH.
Qed.

(** X5: asking for the status of a key takes no slot: a call for that key
    at the same or a later instant gives the same answer and leaves the same
    limiter as if the status had not been asked. *)
Theorem status_query_leaves_admission_alone
        (self : t) (now now' : Q) (api_key : string) :
  (now <= now')%Q ->
  let self1 := (get_remaining_requests self now api_key).2 in
  check_rate_limit self1 now' api_key = check_rate_limit self now' api_key.
Proof.
  intros Hle. unfold get_remaining_requests.
  destruct (requests self !! api_key) as [l|] eqn:Hl; [|reflexivity].
  cbn [snd]. unfold check_rate_limit, prune, window_of.
  cbn [requests max_requests window_seconds].
  rewrite !lookup_insert_eq, !Hl. cbn [default from_option]. unfold id.
  rewrite (newer_newer _ now now' l Hle), !insert_insert_eq.
  reflexivity.
Qed.

Lemma list_min_in (x : Q) (l : list Q) : In (list_min x l) (x :: l).
Proof.
  unfold list_min. revert x. induction l as [|y l IH]; intros x; [now left|].
  cbn [fold_left]. destruct (gtb x y).
  - right. apply IH.
  - destruct (IH x) as [H|H]; [left; exact H | right; right; exact H].
Qed.

Lemma filter_drops_one {A} (f : A -> bool) (a : A) (l : list A) :
  In a l -> f a = false ->
  (List.length (List.filter f l) < List.length l)%nat.
Proof.
  induction l as [|x l IH]; intros Hin Hf; [destruct Hin|].
  pose proof (List.filter_length_le f l) as Hle.
  cbn [List.filter List.length].
  destruct Hin as [->|Hin].
  - rewrite Hf. apply le_n_S, Hle.
  - specialize (IH Hin Hf). destruct (f x); cbn [List.length].
    + now apply le_n_S.
    + now apply Nat.lt_lt_succ_r.
Qed.

Lemma py_int_max0_above (x : Q) : (x < inject_Z (py_int (max0 x)) + 1)%Q.
Proof.
  unfold py_int, max0. destruct (gtb x 0) eqn:Hx.
  - apply gtb_true in Hx.
    assert (Hpos : Qle_bool 0 x = true) by (apply Qle_bool_iff; lra).
    rewrite Hpos. pose proof (Qlt_floor x) as Hfl.
    rewrite inject_Z_plus in Hfl. exact Hfl.
  - apply gtb_false in Hx.
    change (inject_Z (if Qle_bool 0 0 then Qfloor 0 else Qceiling 0)) with 0%Q.
    lra.
Qed.

(** X6: [reset_seconds] is a safe retry delay: with a positive limit and a
    window within it, a call made [reset_seconds + 1] seconds (or more) after
    the status was read is admitted. *)
Theorem retry_after_reset_seconds (self : t) (now now' : Q) (api_key : string) :
  (0 < max_requests self)%Z ->
  (Z.of_nat (List.length (window_of (requests self) api_key))
   <= max_requests self)%Z ->
  let status := get_remaining_requests self now api_key in
  (now + inject_Z (reset_seconds status.1) + 1 <= now')%Q ->
  (check_rate_limit status.2 now' api_key).1 = true.
Proof.
  intros Hmax Hlen status Hwait. subst status.
  destruct (check_rate_limit_window
              (get_remaining_requests self now api_key).2 now' api_key)
    as (Hd & _).
  cbv zeta in Hd. rewrite Hd. apply Z.ltb_lt. clear Hd.
  revert Hwait Hlen. unfold get_remaining_requests, window_of.
  destruct (requests self !! api_key) as [l|] eqn:Hl; cbn [fst snd default from_option].
  2:{ intros _ _. rewrite Hl. cbn. lia. }
  cbn [reset_seconds requests]. rewrite lookup_insert_eq. cbn [default from_option].
  unfold id at 1.
  change (prune {| max_requests := max_requests self;
                   window_seconds := window_seconds self;
                   requests := <[api_key:=prune self now l]> (requests self) |})
    with (prune self).
  pose proof (prune_length self now l) as Hpl.
  destruct (prune self now l) as [|x rest] eqn:Hp.
  - intros _ _. cbn. lia.
  - intros Hwait Hlen.
    pose proof (list_min_in x rest) as Hin.
    pose proof (py_int_max0_above
                  (inject_Z (window_seconds self) - (now - list_min x rest))) as Hab.
    assert (Hgone : gtb (list_min x rest) (now' - inject_Z (window_seconds self))
                    = false) by (apply gtb_false; lra).
    pose proof (filter_drops_one
                  (fun t0 => gtb t0 (now' - inject_Z (window_seconds self)))
                  _ _ Hin Hgone) as Hdrop.
    unfold prune at 1. unfold id in *. cbn [List.length max_requests] in *. lia.
Qed.

End RateLimiterMore.

(** ** The metrics manager *)

Module MetricsFacts.
Import MetricsManager.

Lemma record_query_labels_agree (self : t) (company : string) (latency : Q)
      (cache_hit : bool) :
  labels_agree self -> labels_agree (record_query self company latency cache_hit).
Proof.
  intros H lbl. unfold record_query. cbn [query_counter query_latency].
  destruct (decide ((company, str_bool cache_hit) = lbl)) as [<-|Hne].
  - rewrite !lookup_insert_eq. specialize (H (company, str_bool cache_hit)).
    cbn [default from_option id]. rewrite length_app, H. cbn. lia.
  - rewrite !lookup_insert_ne by exact Hne. apply H.
Qed.

Lemma length_concat_perm (l l' : list ((string * string) * list Q)) :
  l ≡ₚ l' ->
  List.length (List.concat (snd <$> l)) = List.length (List.concat (snd <$> l')).
Proof.
  induction 1 as [|x l l' _ IH|x y l|l l' l'' _ IH1 _ IH2]; cbn.
  - reflexivity.
  - now rewrite !length_app, IH.
  - rewrite !length_app. lia.
  - congruence.
Qed.

Lemma record_query_observations (self : t) (company : string) (latency : Q)
      (cache_hit : bool) :
  List.length (observations (record_query self company latency cache_hit))
  = S (List.length (observations self)).
Proof.
  unfold observations, record_query. cbn [query_latency].
  set (lbl := (company, str_bool cache_hit)). set (ql := query_latency self).
  rewrite <- (insert_delete_eq ql).
  rewrite (length_concat_perm _ _ (map_to_list_insert (delete lbl ql) lbl _
             (lookup_delete_eq ql lbl))).
  destruct (ql !! lbl) as [old|] eqn:Hold.
  - rewrite <- (length_concat_perm _ _ (map_to_list_delete ql lbl old Hold)).
    cbn. rewrite !length_app. cbn. lia.
  - rewrite (delete_id ql lbl Hold). cbn. reflexivity.
Qed.

Lemma record_all_step (self : t) (queries : list (string * Q * bool)) :
  let m := record_all self queries in
  total_queries m = (total_queries self + Z.of_nat (List.length queries))%Z
  /\ cache_hits m = (cache_hits self + count_hits queries)%Z
  /\ cache_misses m = (cache_misses self + count_misses queries)%Z
  /\ concurrent_requests m = concurrent_requests self
  /\ cache_size m = cache_size self
  /\ start_time m = start_time self
  /\ (labels_agree self -> labels_agree m)
  /\ List.length (observations m)
     = (List.length (observations self) + List.length queries)%nat.
Proof.
  revert self. unfold count_hits, count_misses.
  induction queries as [|[[c l] b] qs IH]; intros self.
  - cbn. repeat split; auto; lia.
  - cbn [record_all fold_left fst snd].
    destruct (IH (record_query self c l b))
      as (Ht & Hh & Hm & Hg & Hs & Hst & Hl & Ho).
    fold (record_all (record_query self c l b) qs) in *.
    cbv zeta. rewrite Ht, Hh, Hm, Hg, Hs, Hst, Ho, record_query_observations.
    cbn [List.filter List.length fst snd record_query total_queries cache_hits
         cache_misses concurrent_requests cache_size start_time].
    repeat split; try (destruct b; cbn [negb List.length]; lia).
    intros Hagree. apply Hl. now apply record_query_labels_agree.
Qed.

(** A fresh manager after any series of [record_query]. *)
Lemma record_all_from_init (now : Q)
        (queries : list (string * Q * bool)) :
  let m := record_all (init now) queries in
  total_queries m = Z.of_nat (List.length queries)
  /\ cache_hits m = count_hits queries
  /\ cache_misses m = count_misses queries
  /\ total_queries m = (cache_hits m + cache_misses m)%Z
  /\ concurrent_requests m = 0%Z
  /\ labels_agree m
  /\ List.length (observations m) = List.length queries.
Proof.
  destruct (record_all_step (init now) queries)
    as (Ht & Hh & Hm & Hg & _ & _ & Hl & Ho).
  cbv zeta in *. cbn [init total_queries cache_hits cache_misses concurrent_requests] in *.
  assert (Hsplit : (Z.of_nat (List.length queries)
                    = count_hits queries + count_misses queries)%Z).
  { unfold count_hits, count_misses. clear.
    induction queries as [|[[c l] []] qs IH]; cbn [List.filter List.length snd negb];
      lia. }
  repeat split; try lia.
  - apply Hl. intros lbl. cbn. now rewrite !lookup_empty.
  - rewrite Ho. reflexivity.
Qed.

(** X7: after any series of [record_query] on a fresh manager,
    [total_queries] is the number of queries recorded and equals
    [cache_hits + cache_misses]; for every label the counter equals the
    number of latencies the histogram holds, the histogram holds one latency
    per query, and the concurrency gauge has not moved. *)
Theorem metrics_account_for_every_query (now : Q)
        (queries : list (string * Q * bool)) :
  let m := record_all (init now) queries in
  total_queries m = Z.of_nat (List.length queries)
  /\ cache_hits m = count_hits queries
  /\ cache_misses m = count_misses queries
  /\ total_queries m = (cache_hits m + cache_misses m)%Z
  /\ concurrent_requests m = 0%Z
  /\ labels_agree m
  /\ List.length (observations m) = List.length queries.
Proof. apply record_all_from_init. Qed.


Lemma max1_ge_1 (x : Q) : (1 <= max1 x)%Q.
Proof.
  unfold max1. destruct (RateLimiter.gtb x 1) eqn:Hx; [|lra].
  apply RateLimiterFacts.gtb_true in Hx. lra.
Qed.

Lemma ratio_bounds (a : Z) (b : Q) :
  (0 <= a)%Z -> (1 <= b)%Q ->
  (0 <= inject_Z a / b /\ inject_Z a / b <= inject_Z a)%Q.
Proof.
  intros Ha Hb.
  assert (Ha' : (0 <= inject_Z a)%Q) by (change 0%Q with (inject_Z 0); now rewrite <- Zle_Qle).
  split.
  - apply Qle_shift_div_l; lra.
  - apply Qle_shift_div_r; [lra|]. nra.
Qed.

(** X8: on any manager reached by recording queries, the summary's
    [cache_hit_ratio] lies between 0 and 1 and [queries_per_second] between 0
    and [total_queries]; before the first query both are 0, whatever the
    clock reads (the denominators are never 0). *)
Theorem summary_ratios_are_bounded (start now : Q)
        (queries : list (string * Q * bool)) :
  let m := record_all (init start) queries in
  let summary := get_metrics_summary m now in
  (0 <= s_cache_hit_ratio summary /\ s_cache_hit_ratio summary <= 1)%Q
  /\ (0 <= s_queries_per_second summary
      /\ s_queries_per_second summary <= inject_Z (total_queries m))%Q
  /\ (s_cache_hit_ratio (get_metrics_summary (init start) now) == 0)%Q
  /\ (s_queries_per_second (get_metrics_summary (init start) now) == 0)%Q.
Proof.
  destruct (record_all_from_init start queries)
    as (Ht & Hh & Hm & Hsum & _).
  cbv zeta in *. set (m := record_all (init start) queries) in *.
  assert (Hh0 : (0 <= cache_hits m)%Z) by (rewrite Hh; unfold count_hits; lia).
  assert (Hm0 : (0 <= cache_misses m)%Z) by (rewrite Hm; unfold count_misses; lia).
  unfold get_metrics_summary.
  cbn [s_cache_hit_ratio s_queries_per_second].
  split; [|split; [|split]].
  - split.
    + apply Qle_shift_div_l.
      * change 0%Q with (inject_Z 0). rewrite <- Zlt_Qlt. lia.
      * rewrite Qmult_0_l. change 0%Q with (inject_Z 0). rewrite <- Zle_Qle. lia.
    + apply Qle_shift_div_r.
      * change 0%Q with (inject_Z 0). rewrite <- Zlt_Qlt. lia.
      * rewrite Qmult_1_l, <- Zle_Qle. lia.
  - apply ratio_bounds; [lia | apply max1_ge_1].
  - cbn. reflexivity.
  - cbn [init total_queries]. unfold Qdiv. now rewrite Qmult_0_l.
Qed.

End MetricsFacts.

(** ** The cache object *)

(** X9: with a pool open or openable, [cache.get] counts what the lookup
    finds.  Bytes that decode to a non-empty text are returned as that text
    and counted as one hit; a missing key, empty bytes and a raising
    [redis.get] give [None] and one miss.  Non-empty bytes that are not UTF-8
    are counted as a hit, before [decode] raises, and then as a miss by the
    handler, which returns [None]: that lookup is counted twice.  When the
    lazy connect raises, the exception leaves [cache.get] and nothing is
    counted. *)
Theorem cache_get_counts_what_it_finds (w : World) (key : string) (s : State) :
  let run := cache_get w key s in
  let before := cache s in
  let after := cache (final_state run) in
  let hits :=
    (RedisCache.cache_hits after - RedisCache.cache_hits before)%Z in
  let misses :=
    (RedisCache.cache_misses after - RedisCache.cache_misses before)%Z in
  (RedisCache.redis before = true \/ redis_connect w = Ret tt ->
   RedisCache.redis after = true
   /\ metrics (final_state run) = metrics s
   /\ match redis_get w key with
      | Ret (Some (Encoded text)) =>
          if PyStr.truthy text
          then run.1.1 = Ret (Some text) /\ hits = 1%Z /\ misses = 0%Z
          else run.1.1 = Ret None /\ hits = 0%Z /\ misses = 1%Z
      | Ret (Some Malformed) =>
          run.1.1 = Ret None /\ hits = 1%Z /\ misses = 1%Z
      | Ret None | Raise _ =>
          run.1.1 = Ret None /\ hits = 0%Z /\ misses = 1%Z
      end)
  /\ (forall e, RedisCache.redis before = false -> redis_connect w = Raise e ->
      run.1.1 = Raise e /\ final_state run = s /\ trace run = [EvRedisConnect]).
Proof.
  unfold cache_get, cache_connect, cache_hit_inc, cache_miss_inc,
    bytes_truthy, decode.
  name_run E. destruct s as [[up hits misses] m o v tk].
  cbn [cache metrics RedisCache.redis RedisCache.cache_hits
       RedisCache.cache_misses set_cache] in *.
  split.
  - intros Hup.
    assert (Hpool : up = true \/ up = false /\ redis_connect w = Ret tt)
      by (destruct up; tauto).
    clear Hup. destruct Hpool as [-> | [-> Hc]]; [|rewrite Hc in E];
      cbn [fst snd app] in E;
      destruct (redis_get w key) as [[[text|]|]|e']; cbn [fst snd app] in E;
      try destruct (PyStr.truthy text); cbn [fst snd app] in E;
      close E; cbn; repeat split; lia.
  - intros e -> Hc. rewrite Hc in E. cbn [fst snd app] in E. close E. auto.
Qed.

(** X10: [get_cache_stats] never raises and changes nothing; its hit ratio
    lies between 0 and 1 and is 0 before the first lookup; the cache size is
    0 when no pool is open (Redis is not called) or when [dbsize] raises. *)
Theorem cache_stats_never_fail (w : World) (s : State) :
  let run := get_cache_stats w s in
  let c := cache s in
  (0 <= RedisCache.cache_hits c)%Z -> (0 <= RedisCache.cache_misses c)%Z ->
  exists stats,
    run.1.1 = Ret stats
    /\ final_state run = s
    /\ (0 <= st_hit_ratio stats /\ st_hit_ratio stats <= 1)%Q
    /\ ((RedisCache.cache_hits c + RedisCache.cache_misses c = 0)%Z ->
        st_hit_ratio stats = 0%Q)
    /\ st_cache_size stats
       = (if RedisCache.redis c
          then match redis_dbsize w with Ret n => n | Raise _ => 0%Z end
          else 0%Z)
    /\ trace run = (if RedisCache.redis c then [EvRedisDbsize] else []).
Proof.
  unfold get_cache_stats. name_run E.
  destruct s as [[up hits misses] m o v tk].
  cbn [cache RedisCache.redis RedisCache.cache_hits RedisCache.cache_misses] in *.
  intros Hh Hm.
  assert (Hratio :
    let total := (hits + misses)%Z in
    let ratio := if (0 <? total)%Z
                 then (inject_Z hits / inject_Z total)%Q else 0%Q in
    (0 <= ratio /\ ratio <= 1)%Q /\ (total = 0%Z -> ratio = 0%Q)).
  { cbv zeta. destruct (Z.ltb_spec 0 (hits + misses)) as [Hpos|Hzero].
    - split; [|lia]. split.
      + apply Qle_shift_div_l.
        * change 0%Q with (inject_Z 0). rewrite <- Zlt_Qlt. lia.
        * rewrite Qmult_0_l. change 0%Q with (inject_Z 0). rewrite <- Zle_Qle. lia.
      + apply Qle_shift_div_r.
        * change 0%Q with (inject_Z 0). rewrite <- Zlt_Qlt. lia.
        * rewrite Qmult_1_l, <- Zle_Qle. lia.
    - split; [split; lra | reflexivity]. }
  cbv zeta in Hratio. destruct Hratio as [Hr Hr0].
  destruct up; [destruct (redis_dbsize w) as [n|e]|]; cbn [fst snd app] in E;
    close E; eexists; repeat split; try reflexivity; cbn; tauto.
Qed.

(** ** Pacing of provider calls *)

(** X11: [_rate_limit] never raises and sleeps at most once, for the time
    missing to 50 ms since the last provider call.  If the clock does not run
    backwards and a sleep lasts at least as long as asked, two consecutive
    provider calls are stamped at least 50 ms apart. *)
Theorem provider_calls_are_spaced (w : World) (s : State) :
  let run := _rate_limit w s in
  let before := OpenAIClient.last_request_time (openai_client s) in
  let after := OpenAIClient.last_request_time (openai_client (final_state run)) in
  let t0 := clock w (ticks s) in
  let t1 := clock w (S (ticks s)) in
  let missing := (OpenAIClient.min_request_interval - (t0 - before))%Q in
  (run.1.1 = Ret tt
   /\ after = t1
   /\ trace run = (if RateLimiter.gtb missing 0 then [EvSleep missing] else []))
  /\ ((t0 <= t1)%Q -> (0 < missing -> t0 + missing <= t1)%Q ->
      (OpenAIClient.min_request_interval <= after - before)%Q).
Proof.
  unfold _rate_limit, time_time. name_run E.
  destruct s as [c m [cl lrt] v tk].
  cbn [openai_client OpenAIClient.last_request_time ticks] in *.
  assert (Hsame : RateLimiter.gtb OpenAIClient.min_request_interval
                    (clock w tk - lrt)
                  = RateLimiter.gtb
                      (OpenAIClient.min_request_interval - (clock w tk - lrt)) 0).
  { destruct (RateLimiter.gtb (_ - _) 0) eqn:H.
    - apply RateLimiterFacts.gtb_true. apply RateLimiterFacts.gtb_true in H. lra.
    - apply RateLimiterFacts.gtb_false. apply RateLimiterFacts.gtb_false in H. lra. }
  rewrite Hsame in E.
  destruct (RateLimiter.gtb (_ - _) 0) eqn:Hsleep; cbn [fst snd app] in E; close E;
    cbn [openai_client OpenAIClient.last_request_time set_openai];
    (split; [auto|]); intros Hmono Hslept.
  - apply RateLimiterFacts.gtb_true in Hsleep. specialize (Hslept Hsleep). lra.
  - apply RateLimiterFacts.gtb_false in Hsleep. lra.
Qed.

(** ** The context handed to the model *)

Lemma doc_context_not_empty (m : Match) : doc_context m <> "".
Proof.
  unfold doc_context. intros H. apply (f_equal String.length) in H.
  rewrite !PyStrFacts.length_append in H. cbn in H. lia.
Qed.

Lemma concat_not_empty (sep x : string) (l : list string) :
  x <> "" -> String.concat sep (x :: l) <> "".
Proof.
  intros Hx H. destruct l as [|y l]; cbn in H; [contradiction|].
  apply (f_equal String.length) in H.
  rewrite PyStrFacts.length_append in H.
  destruct x; [contradiction | cbn in H; lia].
Qed.

Lemma context_parts_filter (matches : list Match) :
  context_parts matches
  = map doc_context (List.filter (fun m => negb (below_floor m)) matches).
Proof.
  induction matches as [|m ms IH]; [reflexivity|]. cbn.
  destruct (below_floor m); cbn; now rewrite IH.
Qed.

Lemma context_parts_nil (matches : list Match) :
  context_parts matches = [] <-> forallb below_floor matches = true.
Proof.
  induction matches as [|m ms IH]; [now cbn|].
  cbn [context_parts forallb]. destruct (below_floor m); cbn [andb].
  - exact IH.
  - split; discriminate.
Qed.

(** X12: [_build_context] lays out the blocks of the matches with score at
    least 0.7 in the order of the matches, two line feeds between one block
    and the next and nothing before the first or after the last.  A match
    below the floor adds nothing; a retained match puts its block first, and
    the context of the matches after it follows, behind two line feeds, when
    one of them is retained too.  The context is the empty string exactly
    when every match is below the floor. *)
Theorem context_holds_the_matches_above_the_floor
        (m : Match) (matches : list Match) :
  _build_context [] = ""
  /\ _build_context (m :: matches)
     = (if below_floor m then _build_context matches
        else if forallb below_floor matches then doc_context m
             else doc_context m ++ nl ++ nl ++ _build_context matches)
  /\ context_parts matches
     = map doc_context (List.filter (fun m => negb (below_floor m)) matches)
  /\ (_build_context matches = ""
      <-> Forall (fun m => below_floor m = true) matches).
Proof.
  split; [reflexivity|]. split.
  { unfold _build_context. cbn [context_parts].
    destruct (below_floor m); [reflexivity|].
    destruct (forallb below_floor matches) eqn:Hrest.
    - apply context_parts_nil in Hrest. now rewrite Hrest.
    - destruct (context_parts matches) as [|part parts] eqn:Hparts.
      + apply context_parts_nil in Hparts. congruence.
      + cbn [String.concat]. now rewrite PyStrFacts.append_assoc. }
  split; [apply context_parts_filter|]. split.
  - unfold _build_context.
    induction matches as [|m' ms IH]; intros Hempty; [constructor|].
    cbn [context_parts] in Hempty. destruct (below_floor m') eqn:Hm.
    + constructor; [exact Hm | now apply IH].
    + exfalso. revert Hempty. apply concat_not_empty, doc_context_not_empty.
  - intros Hall. unfold _build_context. now rewrite context_parts_below.
Qed.

(** ** What a query leaves in the metrics *)




Section Quiet.

Variable cfg : Config.
Variable w : World.

Ltac quiet_by_cases :=
  let E := fresh "E" in
  intros [c m [cl lrt] [ix] tk]; name_run E;
  repeat branch E; close E; cbn; auto.

Lemma cache_get_quiet (key : string) : quiet (cache_get w key).
Proof.
  unfold cache_get, cache_connect, cache_hit_inc, cache_miss_inc.
  quiet_by_cases.
Qed.


Lemma get_embedding_async_quiet (text : string) :
  quiet (get_embedding_async w text).
Proof. unfold get_embedding_async, _rate_limit, time_time. quiet_by_cases. Qed.

Lemma vector_store_query_quiet (emb : list Q) (company : string) (k : Z) :
  quiet (vector_store_query w emb company k).
Proof. unfold vector_store_query, vector_store_connect. quiet_by_cases. Qed.

Lemma generate_answer_async_quiet (context question : string) :
  quiet (generate_answer_async w context question).
Proof.
  unfold generate_answer_async, openai_connect_client, _rate_limit, time_time.
  quiet_by_cases.
Qed.

Lemma _record_query_metrics_audited (company question : string) (latency : Q)
      (hit : bool) (api_key : string) (s : State) :
  audited (trace (_record_query_metrics w company question latency hit api_key s))
  = [EvDbCommit question company latency (if hit then 1 else 0)%Z api_key].
Proof.
  unfold _record_query_metrics. name_run E. repeat branch E; close E; reflexivity.
Qed.

End Quiet.

(** Run the next operation of [E]: what it returns and shows, and that it
    is quiet. *)
Ltac step_quiet E :=
  let H := fresh "Hop" in
  let Q := fresh "Hq" in
  match type of E with
  | context [cache_get ?w ?k ?s0] =>
      pose proof (cache_get_spec w k s0) as H;
      pose proof (cache_get_quiet w k s0) as Q
  | context [get_embedding_async ?w ?x ?s0] =>
      pose proof (get_embedding_async_spec w x s0) as H;
      pose proof (get_embedding_async_quiet w x s0) as Q
  | context [vector_store_query ?w ?x ?c ?k ?s0] =>
      pose proof (vector_store_query_spec w x c k s0) as H;
      pose proof (vector_store_query_quiet w x c k s0) as Q
  | context [generate_answer_async ?w ?c ?q ?s0] =>
      pose proof (generate_answer_async_spec w c q s0) as H;
      pose proof (generate_answer_async_quiet w c q s0) as Q
  | context [_record_query_metrics ?w ?c ?q ?l ?b ?k ?s0] =>
      pose proof (_record_query_metrics_spec w c q l b k s0) as H;
      pose proof (_record_query_metrics_audited w c q l b k s0) as Q
  end;
  cbv zeta in H;
  match type of H with
  | context [final_state ?run] => destruct run as [[?r ?s] ?t]
  end;
  proj; cbn [fst snd app] in E.

Ltac observe_trace :=
  repeat first [rewrite observed_app | rewrite observed_cons];
  change (observed []) with (@nil Event);
  repeat match goal with H : observed _ = _ |- _ => rewrite H end;
  cbn [observable app].



Lemma cache_get_returns_entry (w : World) (key : string) (s : State) :
  RedisCache.redis (cache s) = true \/ redis_connect w = Ret tt ->
  (cache_get w key s).1.1 = Ret (usable_entry w key).
Proof.
  intros Hup.
  unfold cache_get, cache_connect, cache_hit_inc, cache_miss_inc, usable_entry,
    bytes_truthy, decode.
  destruct s as [[up hits misses] m o v tk].
  cbv [bind try_except ret raise gets modify call from_res].
  cbn [cache RedisCache.redis] in *.
  assert (Hpool : up = true \/ up = false /\ redis_connect w = Ret tt)
    by (destruct up; tauto).
  destruct Hpool as [-> | [-> Hc]]; [|rewrite Hc];
    destruct (redis_get w key) as [[[x|]|]|e']; cbn;
    try destruct (PyStr.truthy x); reflexivity.
Qed.

(** X14: when the cache holds a non-empty answer under the key of the
    query (and a pool is open or openable), [process_query] returns that
    answer with source [cache] and makes no embedding call, no index query,
    no generation call and no cache write. *)
Theorem cached_answers_need_no_provider
        (cfg : Config) (w : World) (company question api_key : string)
        (s : State) (v : string) :
  let run := process_query cfg w company question api_key s in
  RedisCache.redis (cache s) = true \/ redis_connect w = Ret tt ->
  usable_entry w (get_cache_key company question) = Some v ->
  (exists lat, returned run = Some (cached_result v lat))
  /\ observed (trace run) = [EvGaugeInc; EvGaugeDec].
Proof.
  cbv zeta. intros Hpool Hv.
  unfold process_query, process_query_body, increment_concurrent,
    decrement_concurrent, elapsed,
    record_query, time_time, returned.
  name_run E.
  match type of E with
  | context [cache_get ?w ?k ?s0] =>
      pose proof (cache_get_returns_entry w k s0 Hpool) as Hentry
  end.
  step_quiet E. destruct Hop as (_ & Ht1 & Hr1). clear Hq.
  cbn [fst] in Hentry. subst r0. rewrite Hv in *.
  destruct Hr1 as (_ & _ & Htruthy).
  cbn [opt_truthy fst snd app] in E. rewrite Htruthy in E.
  step_quiet E. destruct Hop as (-> & -> & Ht2). cbn [fst snd app] in E.
  close E. split; [eexists; reflexivity|]. observe_trace. reflexivity.
Qed.

(** ** The query endpoint *)

Lemma valid_api_key_length (api_key : string) :
  valid_api_key api_key = true <-> (8 <= String.length api_key)%nat.
Proof.
  unfold valid_api_key. rewrite andb_true_iff, Nat.leb_le. split; [tauto|].
  intros H. split; [|exact H]. destruct api_key; [cbn in H; lia | reflexivity].
Qed.

(** X15: [query_endpoint] answers 401 to a key of fewer than 8 characters
    and touches nothing; to a valid key the limiter denies it answers 429
    without starting the pipeline: no outside call is made, cache and metrics
    stay as they were, and the limiter keeps only the pruned window (the
    denied call leaves no timestamp). *)
Theorem query_endpoint_turns_callers_away
        (cfg : Config) (w : World) (company question api_key : string)
        (srv : Server) :
  let run := query_endpoint cfg w company question api_key srv in
  let now := clock w (ticks (process srv)) in
  let check := RateLimiter.check_rate_limit (rate_limiter srv) now api_key in
  ((String.length api_key < 8)%nat ->
   run = (HTTPException 401 "Invalid API key", srv, []))
  /\ ((8 <= String.length api_key)%nat -> check.1 = false ->
      run.1.1 = HTTPException 429 "Rate limit exceeded"
      /\ run.2 = []
      /\ rate_limiter run.1.2 = check.2
      /\ RateLimiter.window_of (RateLimiter.requests check.2) api_key
         = RateLimiter.prune (rate_limiter srv) now
             (RateLimiter.window_of (RateLimiter.requests (rate_limiter srv))
                                    api_key)
      /\ cache (process run.1.2) = cache (process srv)
      /\ metrics (process run.1.2) = metrics (process srv)).
Proof.
  cbv zeta. unfold query_endpoint. split.
  - intros Hshort.
    assert (Hv : valid_api_key api_key = false).
    { apply not_true_is_false. rewrite valid_api_key_length. lia. }
    now rewrite Hv.
  - intros Hlong Hdenied.
    apply valid_api_key_length in Hlong. rewrite Hlong. cbn [negb].
    unfold time_time.
    destruct (RateLimiterFacts.check_rate_limit_window (rate_limiter srv)
                (clock w (ticks (process srv))) api_key) as (Hd & Hwin & _).
    cbv zeta in Hd, Hwin. rewrite Hdenied in Hd. rewrite <- Hd in Hwin.
    destruct (RateLimiter.check_rate_limit _ _ _) as [admitted limiter1].
    cbn in Hdenied. subst admitted. cbn. auto 10.
Qed.

(** What the handler does once the caller is let in. *)
Lemma query_endpoint_admitted
      (cfg : Config) (w : World) (company question api_key : string)
      (srv : Server) :
  let now := clock w (ticks (process srv)) in
  let check := RateLimiter.check_rate_limit (rate_limiter srv) now api_key in
  let st1 := (time_time w (process srv)).1.2 in
  (8 <= String.length api_key)%nat -> check.1 = true ->
  query_endpoint cfg w company question api_key srv
  = match process_query cfg w company question api_key st1 with
    | (Raise e, st2, t) => (ServerError e, mkServer check.2 st2, t)
    | (Ret result, st2, t) =>
        if RedisCache.redis (cache st2)
        then
          match redis_dbsize w with
          | Raise e =>
              (ServerError e, mkServer check.2 st2, (t ++ [EvRedisDbsize])%list)
          | Ret size =>
              (Ok result,
               mkServer check.2
                 (set_metrics
                    (MetricsManager.update_cache_size (metrics st2) size) st2),
               (t ++ [EvRedisDbsize])%list)
          end
        else (Ok result, mkServer check.2 st2, t)
    end.
Proof.
  cbv zeta. intros Hlong Hadmit. unfold query_endpoint.
  apply valid_api_key_length in Hlong. rewrite Hlong. cbn [negb].
  unfold time_time. cbn [fst snd].
  destruct (RateLimiter.check_rate_limit _ _ _) as [admitted limiter1].
  cbn in Hadmit. subst admitted. reflexivity.
Qed.

(** X16: for a valid key the limiter admits, [query_endpoint] runs
    [process_query] once and returns its dictionary; with a pool open it then
    asks Redis for [dbsize] and stores it in the cache-size gauge, and if that
    call raises the exception escapes the handler although the query had been
    processed. *)
Theorem query_endpoint_serves_the_admitted
        (cfg : Config) (w : World) (company question api_key : string)
        (srv : Server) :
  let run := query_endpoint cfg w company question api_key srv in
  let now := clock w (ticks (process srv)) in
  let check := RateLimiter.check_rate_limit (rate_limiter srv) now api_key in
  let st1 := (time_time w (process srv)).1.2 in
  let inner := process_query cfg w company question api_key st1 in
  (8 <= String.length api_key)%nat -> check.1 = true ->
  exists r,
    returned inner = Some r
    /\ rate_limiter run.1.2 = check.2
    /\ (RedisCache.redis (cache (final_state inner)) = false ->
        run.1.1 = Ok r /\ run.2 = trace inner)
    /\ (RedisCache.redis (cache (final_state inner)) = true ->
        run.2 = (trace inner ++ [EvRedisDbsize])%list
        /\ match redis_dbsize w with
           | Ret size =>
               run.1.1 = Ok r
               /\ MetricsManager.cache_size (metrics (process run.1.2)) = size
           | Raise e => run.1.1 = ServerError e
           end).
Proof.
  cbv zeta. intros Hlong Hadmit.
  rewrite (query_endpoint_admitted cfg w company question api_key srv Hlong Hadmit).
  destruct (process_query_returns cfg w company question api_key
              (time_time w (process srv)).1.2) as (r & Hr & _).
  exists r. split; [exact Hr|].
  unfold returned in Hr.
  destruct (process_query cfg w company question api_key _) as [[res st2] t].
  cbn [fst snd final_state trace] in *.
  destruct res as [r'|e]; [|discriminate]. injection Hr as ->.
  destruct (RedisCache.redis (cache st2)).
  - destruct (redis_dbsize w) as [size|e]; cbn;
      (split; [reflexivity|]); (split; [intros H; discriminate H|]); auto.
  - cbn. split; [reflexivity|]. split; [auto|]. intros H; discriminate H.
Qed.

(** ** Ingestion *)

Module IngestFacts.
Import Ingest.

Ltac open_run E :=
  cbv zeta;
  match goal with
  | |- context [fst (fst ?run)] => destruct run as [[?r ?s'] ?t] eqn:E
  | |- context [snd ?run] => destruct run as [[?r ?s'] ?t] eqn:E
  end;
  cbn [final_state trace returned fst snd] in *;
  cbv [ibind itry_except iret iraise icall lift
       bind try_except try_finally ret raise gets modify call emit] in E;
  cbn [fst snd app fmap list_fmap] in E.

Ltac ibranch E :=
  match type of E with
  | context [match ?x with _ => _ end] =>
      lazymatch x with
      | context [match _ with _ => _ end] => fail
      | _ => destruct x eqn:?
      end
  end;
  cbn [fst snd app fmap list_fmap] in E.

(** Every way through [process_document] is one of the ways of
    [Ingested]. *)
Lemma process_document_ingested (iw : IWorld) (document : gmap string string)
      (s : State) :
  let run := process_document iw document s in
  exists r, run.1.1 = Ret r
            /\ Ingested iw document (doc_id_at iw document s) r
                        (idurable run.2).
Proof.
  unfold process_document, upsert_documents, _store_in_database, elapsed,
    get_embedding_async, _rate_limit, vector_store_connect, time_time.
  fold (complete document).
  open_run E. destruct s as [c m [cl lrt] [ix] tk].
  destruct (complete document) eqn:Hc; cbn [negb] in E.
  2:{ cbn [fst snd app fmap list_fmap] in E. close E.
      eexists; split; [reflexivity|]. now apply IngestRejected. }
  cbn [fst snd app fmap list_fmap ticks openai_client vector_store
       OpenAIClient.last_request_time PineconeManager.index] in E.
  repeat ibranch E; close E;
    repeat match goal with u : () |- _ => destruct u end;
    (eexists; split; [reflexivity|]);
    unfold idurable; cbn [List.filter durable app fmap list_fmap];
    first [ solve [eapply IngestEmbedFailed; eauto]
          | solve [eapply IngestIndexDown; eauto]
          | solve [eapply IngestUpsertFailed; eauto]
          | solve [eapply IngestStoreFailed; eauto]
          | solve [eapply IngestStored; eauto]
          ].
Qed.

(** X17: a document in which company, report type, report date or content
    is missing or empty is rejected with the fixed message before any work:
    no outside call is made and cache, metrics, OpenAI client and index
    handle are left as they were. *)
Theorem incomplete_documents_are_rejected_untouched
        (iw : IWorld) (document : gmap string string) (s : State) :
  let run := process_document iw document s in
  complete document = false ->
  (exists lat, run.1.1 = Ret (rejected lat))
  /\ run.2 = []
  /\ cache run.1.2 = cache s
  /\ metrics run.1.2 = metrics s
  /\ openai_client run.1.2 = openai_client s
  /\ vector_store run.1.2 = vector_store s.
Proof.
  cbv zeta. intros Hc.
  unfold process_document, elapsed, time_time. fold (complete document).
  rewrite Hc. cbn. eauto 10.
Qed.

(** X18: [process_document] never raises.  It reports success only when
    the embedding, the upsert and the commit all went through, in that order;
    the id it returns is then the id of the vector and of the row,
    [company_type_date_] followed by 8 hex digits, and the vector carries the
    first 300 characters of the content.  A failure carries an error text and
    no id. *)
Theorem ingestion_reports_what_happened
        (iw : IWorld) (document : gmap string string) (s : State) :
  let run := process_document iw document s in
  let f := fields_of document in
  let doc_id := doc_id_at iw document s in
  exists r,
    run.1.1 = Ret r
    /\ (success r = true ->
        document_id r = Some doc_id /\ ingest_error r = None
        /\ exists emb,
             embeddings_create (core iw) (f_content f) = Ret emb
             /\ index_upsert iw [vector_of f doc_id emb] = Ret tt
             /\ commit_outcome iw f doc_id = Ret tt
             /\ idurable run.2
                = [ICore (EvEmbeddings (f_content f));
                   IUpsert [vector_of f doc_id emb];
                   commit_of iw f doc_id])
    /\ (success r = false ->
        document_id r = None /\ is_Some (ingest_error r)).
Proof.
  cbv zeta.
  destruct (process_document_ingested iw document s) as (r & Hr & Hs).
  exists r. split; [exact Hr|].
  inversion Hs; subst; cbn; split; intros Hok; try discriminate Hok; eauto 10.
Qed.

(** X19: nothing is rolled back: when the commit to the reports table
    raises, the document is reported as failed with that error although its
    vector has been upserted, and no later call withdraws it. *)
Theorem failed_commit_leaves_the_vector
        (iw : IWorld) (document : gmap string string) (s : State)
        (e : Exception) :
  let run := process_document iw document s in
  let f := fields_of document in
  let doc_id := doc_id_at iw document s in
  In (commit_of iw f doc_id) run.2 ->
  commit_outcome iw f doc_id = Raise e ->
  exists lat emb,
    run.1.1 = Ret (failed_with e lat)
    /\ index_upsert iw [vector_of f doc_id emb] = Ret tt
    /\ idurable run.2
       = [ICore (EvEmbeddings (f_content f));
          IUpsert [vector_of f doc_id emb];
          commit_of iw f doc_id].
Proof.
  cbv zeta. intros Hin Hfail.
  destruct (process_document_ingested iw document s) as (r & Hr & Hs).
  assert (Hin' : In (commit_of iw (fields_of document) (doc_id_at iw document s))
                    (idurable (process_document iw document s).2))
    by (apply filter_In; split; [exact Hin | reflexivity]).
  rewrite Hr.
  inversion Hs; subst;
    match goal with H : _ = idurable _ |- _ => rewrite <- H in * end;
    cbn [In] in Hin';
    repeat match type of Hin' with
           | _ \/ _ => destruct Hin' as [Hin'|Hin']
           | False => destruct Hin'
           end;
    try discriminate Hin'; try congruence.
  replace e0 with e by congruence. eauto.
Qed.

Lemma embedding_calls_durable (t : list IEvent) :
  List.filter is_embedding_call t = List.filter is_embedding_call (idurable t).
Proof.
  unfold idurable. induction t as [|ev t IH]; [reflexivity|].
  cbn [List.filter]. destruct ev as [[]| |]; cbn; now rewrite IH.
Qed.

Lemma process_document_embeds_once (iw : IWorld)
      (document : gmap string string) (s : State) :
  List.filter is_embedding_call (process_document iw document s).2
  = if complete document
    then [ICore (EvEmbeddings (f_content (fields_of document)))] else [].
Proof.
  rewrite embedding_calls_durable.
  destruct (process_document_ingested iw document s) as (r & _ & Hs).
  inversion Hs; subst;
    match goal with H : complete document = _ |- _ => rewrite H end;
    reflexivity.
Qed.

Lemma process_each_returns (iw : IWorld) (documents : list (gmap string string)) :
  forall s, exists results,
    (process_each iw documents s).1.1 = Ret results
    /\ List.length results = List.length documents
    /\ List.filter is_embedding_call (process_each iw documents s).2
       = map (fun d => ICore (EvEmbeddings (f_content (fields_of d))))
             (List.filter complete documents).
Proof.
  induction documents as [|d ds IH]; intros s; [now exists []|].
  cbn [process_each]. unfold ibind, iret.
  destruct (process_document_ingested iw d s) as (r & Hr & _).
  pose proof (process_document_embeds_once iw d s) as Hemb.
  destruct (process_document iw d s) as [[res s1] t1]. cbn [fst snd] in Hr, Hemb.
  subst res.
  destruct (IH s1) as (rs & Hrs & Hlen & Hembs).
  destruct (process_each iw ds s1) as [[res s2] t2]. cbn [fst snd] in Hrs, Hembs.
  subst res. cbn [fst snd]. exists (r :: rs).
  rewrite ?app_nil_r, List.filter_app, Hemb, Hembs.
  cbn [List.length List.filter app].
  destruct (complete d); cbn [map app List.length]; auto.
Qed.

(** X20: [batch_process_documents] never raises; it reports the number of
    documents given, [successful + failed] equals it, neither is negative,
    and every complete document gets its embedding call, in order, whatever
    happened to the documents before it. *)
Theorem batch_counts_add_up
        (iw : IWorld) (documents : list (gmap string string)) (s : State) :
  let run := batch_process_documents iw documents s in
  exists b,
    run.1.1 = Ret b
    /\ total_documents b = Z.of_nat (List.length documents)
    /\ (successful b + failed b = total_documents b)%Z
    /\ (0 <= successful b)%Z /\ (0 <= failed b)%Z
    /\ List.filter is_embedding_call run.2
       = map (fun d => ICore (EvEmbeddings (f_content (fields_of d))))
             (List.filter complete documents).
Proof.
  cbv zeta. unfold batch_process_documents, elapsed, time_time.
  cbv [ibind lift iret bind ret]. cbn [fst snd].
  match goal with |- context [process_each iw documents ?s0] =>
    destruct (process_each_returns iw documents s0) as (rs & Hrs & Hlen & Hemb);
    destruct (process_each iw documents s0) as [[res s1] t1] end.
  cbn in Hrs, Hemb. subst res. cbn.
  eexists. split; [reflexivity|]. cbn. rewrite ?app_nil_r.
  pose proof (List.filter_length_le success rs). repeat split; try lia.
  exact Hemb.
Qed.

End IngestFacts.

(** ** Instances of the properties above *)

(** A fresh limiter of two requests per minute, three calls of one tenant. *)
Lemma windows_never_exceed_limit_witness :
  let calls := [("a", 0%Q); ("a", 1%Q); ("b", 1%Q); ("a", 2%Q)] in
  (Z.of_nat (List.length
     (RateLimiter.window_of
        (RateLimiter.requests
           (RateLimiter.check_calls (RateLimiter.init 2 60) calls).2) "a"))
   <= 2)%Z
  /\ RateLimiter.max_requests
       (RateLimiter.check_calls (RateLimiter.init 2 60) calls).2 = 2%Z.
Proof.
  apply (RateLimiterMore.windows_never_exceed_limit (RateLimiter.init 2 60)).
  intros k. unfold RateLimiter.window_of. cbn. rewrite lookup_empty. cbn. lia.
Defined.

(** One call at 0 with a limit of one; the next call comes at 60. *)
Lemma window_resets_after_expiry_witness :
  (RateLimiter.check_rate_limit used_limiter 60 "tenant-1").1 = true
  /\ RateLimiter.window_of
       (RateLimiter.requests
          (RateLimiter.check_rate_limit used_limiter 60 "tenant-1").2)
       "tenant-1" = [60%Q].
Proof.
  apply (RateLimiterMore.window_resets_after_expiry used_limiter 60 "tenant-1").
  - vm_compute. reflexivity.
  - vm_compute. repeat constructor. discriminate.
Defined.

(** The status is read at 30, the next call comes at 45. *)
Lemma status_query_leaves_admission_alone_witness :
  RateLimiter.check_rate_limit
    (RateLimiter.get_remaining_requests used_limiter 30 "tenant-1").2 45
    "tenant-1"
  = RateLimiter.check_rate_limit used_limiter 45 "tenant-1".
Proof.
  apply (RateLimiterMore.status_query_leaves_admission_alone
           used_limiter 30 45 "tenant-1").
  vm_compute. discriminate.
Defined.

(** The status read at 30 says 30 seconds; the call at 61 is admitted. *)
Lemma retry_after_reset_seconds_witness :
  RateLimiter.reset_seconds
    (RateLimiter.get_remaining_requests used_limiter 30 "tenant-1").1 = 30%Z
  /\ (RateLimiter.check_rate_limit
        (RateLimiter.get_remaining_requests used_limiter 30 "tenant-1").2 61
        "tenant-1").1 = true.
Proof.
  split; [reflexivity|].
  apply (RateLimiterMore.retry_after_reset_seconds used_limiter 30 61 "tenant-1").
  - vm_compute. reflexivity.
  - vm_compute. discriminate.
  - vm_compute. discriminate.
Defined.

(** A lookup that hits, a lookup that finds bytes that are not UTF-8, and a
    lookup with Redis down. *)
Lemma cache_get_counts_what_it_finds_witness :
  (cache_get warm_world "k" (initial_state 0)).1.1 = Ret (Some "v")
  /\ (let after :=
        cache (final_state (cache_get (redis_garbled warm_world) "k"
                                      (initial_state 0))) in
      RedisCache.cache_hits after = 1%Z
      /\ RedisCache.cache_misses after = 1%Z)
  /\ (cache_get (redis_unreachable warm_world) "k" (initial_state 0)).1.1
     = Raise (Exc "Connection refused").
Proof.
  destruct (cache_get_counts_what_it_finds warm_world "k" (initial_state 0))
    as [Hopen _].
  destruct (cache_get_counts_what_it_finds (redis_garbled warm_world) "k"
              (initial_state 0)) as [Hgarbled _].
  destruct (cache_get_counts_what_it_finds (redis_unreachable warm_world)
              "k" (initial_state 0)) as [_ Hdown].
  destruct (Hopen (or_intror eq_refl)) as (_ & _ & Hhit).
  destruct (Hgarbled (or_intror eq_refl)) as (_ & _ & Htwice).
  destruct (Hdown (Exc "Connection refused") eq_refl eq_refl) as (Hraise & _).
  hnf in Hhit. hnf in Htwice.
  destruct Hhit as (Hres & _). destruct Htwice as (_ & Hhits & Hmisses).
  split; [exact Hres | split; [split; [exact Hhits | exact Hmisses] |
                               exact Hraise]].
Defined.

(** Statistics of a cache that has an open pool and no lookup yet. *)
Lemma cache_stats_never_fail_witness :
  exists stats,
    (get_cache_stats warm_world (started_state 0)).1.1 = Ret stats
    /\ st_hit_ratio stats = 0%Q
    /\ st_cache_size stats = 1%Z.
Proof.
  destruct (cache_stats_never_fail warm_world (started_state 0))
    as (stats & Hres & _ & _ & Hzero & Hsize & _); [cbn; lia | cbn; lia |].
  exists stats. split; [exact Hres|]. split; [apply Hzero; reflexivity|].
    exact Hsize.
Defined.

(** The first provider call, on a clock that advances a second per reading. *)
Lemma provider_calls_are_spaced_witness :
  let run := _rate_limit warm_world (initial_state 0) in
  (OpenAIClient.min_request_interval
   <= OpenAIClient.last_request_time (openai_client (final_state run))
      - OpenAIClient.last_request_time (openai_client (initial_state 0)))%Q.
Proof.
  apply (provider_calls_are_spaced warm_world (initial_state 0)).
  - vm_compute. discriminate.
  - intros _. vm_compute. discriminate.
Defined.

(** A query whose answer is already stored under its key. *)
Lemma cached_answers_need_no_provider_witness :
  let w := healthy_world (get_cache_key "Apple" "What was revenue?")
                         "Revenue grew." [] in
  let run := process_query default_config w "Apple" "What was revenue?"
                           "key-12345" (initial_state 0) in
  (exists lat, returned run = Some (cached_result "Revenue grew." lat))
  /\ observed (trace run) = [EvGaugeInc; EvGaugeDec].
Proof.
  apply (cached_answers_need_no_provider default_config
           (healthy_world (get_cache_key "Apple" "What was revenue?")
                          "Revenue grew." [])
           "Apple" "What was revenue?" "key-12345" (initial_state 0)
           "Revenue grew.").
  - right. reflexivity.
  - vm_compute. reflexivity.
Defined.

(** A five-character key, and a valid key against a limit of 0. *)
Lemma query_endpoint_turns_callers_away_witness :
  query_endpoint default_config warm_world "Apple" "What was revenue?" "short"
                 (fresh_server 100)
  = (HTTPException 401 "Invalid API key", fresh_server 100, [])
  /\ (query_endpoint default_config warm_world "Apple" "What was revenue?"
                     "key-12345" (fresh_server 0)).1.1
     = HTTPException 429 "Rate limit exceeded".
Proof.
  destruct (query_endpoint_turns_callers_away default_config warm_world
              "Apple" "What was revenue?" "short" (fresh_server 100))
    as [Hshort _].
  destruct (query_endpoint_turns_callers_away default_config warm_world
              "Apple" "What was revenue?" "key-12345" (fresh_server 0))
    as [_ Hdenied].
  split.
  - apply Hshort. cbn. lia.
  - apply Hdenied; [cbn; lia | reflexivity].
Defined.

(** A valid key on a fresh server with a limit of 100. *)
Lemma query_endpoint_serves_the_admitted_witness :
  let srv := fresh_server 100 in
  let run := query_endpoint default_config warm_world "Apple"
                            "What was revenue?" "key-12345" srv in
  exists r,
    run.1.1 = Ok r
    /\ MetricsManager.cache_size (metrics (process run.1.2)) = 1%Z.
Proof.
  destruct (query_endpoint_serves_the_admitted default_config warm_world
              "Apple" "What was revenue?" "key-12345" (fresh_server 100))
    as (r & _ & _ & _ & Hopen); [cbn; lia | reflexivity |].
  exists r. apply Hopen. vm_compute. reflexivity.
Defined.

(** The sample document without its content. *)
Lemma incomplete_documents_are_rejected_untouched_witness :
  let run := Ingest.process_document (Ingest.sample_world (Ret tt))
               (delete "content" Ingest.sample_document) (initial_state 0) in
  (exists lat, run.1.1 = Ret (Ingest.rejected lat)) /\ run.2 = [].
Proof.
  destruct (IngestFacts.incomplete_documents_are_rejected_untouched
              (Ingest.sample_world (Ret tt))
              (delete "content" Ingest.sample_document) (initial_state 0))
    as (Hres & Htrace & _).
  - vm_compute. reflexivity.
  - split; [exact Hres | exact Htrace].
Defined.

(** The sample document when every service answers. *)
Lemma ingestion_reports_what_happened_witness :
  let iw := Ingest.sample_world (Ret tt) in
  let run := Ingest.process_document iw Ingest.sample_document
                                     (initial_state 0) in
  exists r,
    run.1.1 = Ret r
    /\ Ingest.document_id r
       = Some (Ingest.doc_id_at iw Ingest.sample_document (initial_state 0))
    /\ Ingest.ingest_error r = None.
Proof.
  destruct (IngestFacts.ingestion_reports_what_happened
              (Ingest.sample_world (Ret tt)) Ingest.sample_document
              (initial_state 0))
    as (r & Hres & Hgood & _).
  exists r. split; [exact Hres|].
  destruct Hgood as (Hid & Herr & _).
  - cbv zeta in Hres. vm_compute in Hres. injection Hres as <-. reflexivity.
  - split; [exact Hid | exact Herr].
Defined.

(** The sample document when the commit raises. *)
Lemma failed_commit_leaves_the_vector_witness :
  let iw := Ingest.sample_world (Raise (Exc "database is locked")) in
  let run := Ingest.process_document iw Ingest.sample_document
                                     (initial_state 0) in
  exists lat, run.1.1 = Ret (Ingest.failed_with (Exc "database is locked") lat).
Proof.
  destruct (IngestFacts.failed_commit_leaves_the_vector
              (Ingest.sample_world (Raise (Exc "database is locked")))
              Ingest.sample_document (initial_state 0)
              (Exc "database is locked"))
    as (lat & emb & Hres & _).
  - vm_compute. repeat (first [left; reflexivity | right]).
  - reflexivity.
  - exists lat. exact Hres.
Defined.
